(** * Product search utilities (src/utils/searchUtils.ts)

    A shallow embedding of the catalogue search helpers
    [normalizeSearchText], [tokenize], [matchesSearch],
    [matchesSearchArray], [searchProduct] and [debugSearch], and the
    properties their specification states about them.

    A JavaScript string is a sequence of UTF-16 code units; [length],
    [includes], [startsWith], [split] and the regular expressions of the
    source (none has the [u] flag) all work on code units.  The two
    operations of the runtime that depend on the Unicode character
    database, [String.prototype.toLowerCase] and
    [String.prototype.normalize], are the fields of the class [Runtime]:
    what is proved for every string is proved for every runtime. *)

From Stdlib Require Import String Ascii.
From Stdlib Require Import ZArith List Bool Lia.
Import ListNotations.
Open Scope Z_scope.
Open Scope list_scope.

(* ================================================================== *)
(** ** JavaScript strings                                              *)
(* ================================================================== *)

(** A UTF-16 code unit, 0 .. 0xFFFF. *)
Definition unit16 : Type := Z.

Definition jsstring : Type := list unit16.

(** [a === b] on strings. *)
Fixpoint str_eqb (a b : jsstring) : bool :=
  match a, b with
  | [], [] => true
  | x :: a', y :: b' => (x =? y) && str_eqb a' b'
  | _, _ => false
  end.

Definition inRange (lo hi c : unit16) : bool := (lo <=? c) && (c <=? hi).

(** ECMAScript WhiteSpace and LineTerminator: what [trim] strips and what
    [\s] matches. *)
Definition isWhiteSpace (c : unit16) : bool :=
  inRange 0x09 0x0D c || (c =? 0x20) || (c =? 0xA0) || (c =? 0x1680)
  || inRange 0x2000 0x200A c || (c =? 0x2028) || (c =? 0x2029)
  || (c =? 0x202F) || (c =? 0x205F) || (c =? 0x3000) || (c =? 0xFEFF).

Fixpoint trimStart (s : jsstring) : jsstring :=
  match s with
  | [] => []
  | c :: r => if isWhiteSpace c then trimStart r else s
  end.

Definition trimEnd (s : jsstring) : jsstring := rev (trimStart (rev s)).

(** [s.trim()] *)
Definition trim (s : jsstring) : jsstring := trimEnd (trimStart s).

(** [s.replace(/[...]/g, '')] for a class of single code units. *)
Definition removeAll (cls : unit16 -> bool) (s : jsstring) : jsstring :=
  filter (fun c => negb (cls c)) s.

(** [s.replace(/[...]/g, to)] for a class of single code units and a
    replacement of one code unit. *)
Definition replaceAll (cls : unit16 -> bool) (to : unit16) (s : jsstring)
  : jsstring :=
  map (fun c => if cls c then to else c) s.

(** [s.replace(/[...]+/g, to)]: every maximal run of the class becomes one
    [to].  [inRun] tells that the previous code unit was in the class. *)
Fixpoint replaceRuns (cls : unit16 -> bool) (to : unit16) (inRun : bool)
  (s : jsstring) : jsstring :=
  match s with
  | [] => []
  | c :: r =>
      if cls c
      then if inRun then replaceRuns cls to true r
           else to :: replaceRuns cls to true r
      else c :: replaceRuns cls to false r
  end.

(** [s.split(/[...]+/)]: the pieces between the maximal runs of the class.
    A run at the start or at the end of [s] leaves an empty piece there,
    and the empty string splits into one empty piece.  [cur] is the piece
    being read, [inRun] tells that the previous code unit was in the
    class. *)
Fixpoint splitRuns (cls : unit16 -> bool) (inRun : bool) (cur s : jsstring)
  : list jsstring :=
  match s with
  | [] => [cur]
  | c :: r =>
      if cls c
      then if inRun then splitRuns cls true cur r
           else cur :: splitRuns cls true [] r
      else splitRuns cls false (cur ++ [c]) r
  end.

Definition split (cls : unit16 -> bool) (s : jsstring) : list jsstring :=
  splitRuns cls false [] s.

(** [s.startsWith(p)] *)
Fixpoint startsWith (s p : jsstring) {struct p} : bool :=
  match p, s with
  | [], _ => true
  | _ :: _, [] => false
  | x :: p', y :: s' => (x =? y) && startsWith s' p'
  end.

(** [s.includes(p)] *)
Fixpoint includes (s p : jsstring) : bool :=
  startsWith s p ||
  match s with
  | [] => false
  | _ :: s' => includes s' p
  end.

(** The part of the runtime that reads the Unicode character database. *)
Class Runtime : Type := {
  toLowerCase : jsstring -> jsstring;   (* s.toLowerCase() *)
  normalizeNFD : jsstring -> jsstring   (* s.normalize('NFD') *)
}.

(** A parameter of type [string] may be [undefined] at run time. *)
Abbreviation undefined := None (only parsing).

(** [!text] for a string or [undefined]. *)
Definition falsy (text : option jsstring) : bool :=
  match text with
  | None => true
  | Some [] => true
  | Some (_ :: _) => false
  end.

(** What a statement either produces or throws. *)
Inductive exn : Type := TypeError.

Inductive completion (A : Type) : Type :=
| Normal (a : A)
| Throw (e : exn).
Arguments Normal {A} a.
Arguments Throw {A} e.

(** String literals: the UTF-16 code units of a literal written in UTF-8
    (code points of the Basic Multilingual Plane). *)
Fixpoint utf16 (bytes : list Z) : jsstring :=
  match bytes with
  | [] => []
  | b0 :: r0 =>
      if b0 <? 0x80 then b0 :: utf16 r0
      else
        match r0 with
        | [] => [0xFFFD]
        | b1 :: r1 =>
            if b0 <? 0xE0 then (b0 mod 32 * 64 + b1 mod 64) :: utf16 r1
            else
              match r1 with
              | [] => [0xFFFD]
              | b2 :: r2 =>
                  (b0 mod 16 * 4096 + b1 mod 64 * 64 + b2 mod 64) :: utf16 r2
              end
        end
  end.

Definition js (literal : String.string) : jsstring :=
  utf16 (map (fun a => Z.of_N (Ascii.N_of_ascii a))
             (String.list_ascii_of_string literal)).

(** [`${x}`] for a string or [undefined]. *)
Definition interpolate (x : option jsstring) : jsstring :=
  match x with
  | Some s => s
  | None => js "undefined"
  end.

(* ================================================================== *)
(** ** The search utilities                                            *)
(* ================================================================== *)

(** The class of [/[\u0300-\u036f]/]. *)
Definition isCombiningMark (c : unit16) : bool := inRange 0x0300 0x036F c.

(** The class of the slash and the backslash. *)
Definition isSlash (c : unit16) : bool := (c =? 0x2F) || (c =? 0x5C).

(** The class of the separators of [tokenize]: white space, hyphen,
    slash, comma. *)
Definition isSeparator (c : unit16) : bool :=
  isWhiteSpace c || (c =? 0x2D) || (c =? 0x2F) || (c =? 0x2C).

(** The "common variations" of [normalizeSearchText], in the order of the
    source: accented Greek vowels to the plain vowel, final sigma to
    sigma. *)
Definition greekVariations : list (unit16 * unit16) :=
  [ (0x03AC, 0x03B1); (0x03AD, 0x03B5); (0x03AE, 0x03B7); (0x03AF, 0x03B9);
    (0x03CC, 0x03BF); (0x03CD, 0x03C5); (0x03CE, 0x03C9); (0x0390, 0x03B9);
    (0x03B0, 0x03C5); (0x03C2, 0x03C3) ].

(** The chain of [.replace(/x/g, 'y')] calls over a table. *)
Definition replaceTable (table : list (unit16 * unit16)) (s : jsstring)
  : jsstring :=
  fold_left (fun acc p => replaceAll (Z.eqb (fst p)) (snd p) acc) table s.

(** [token => token.length >= 2] *)
Definition longEnough (token : jsstring) : bool := (2 <=? length token)%nat.

Section SearchUtils.
Context {R : Runtime}.

(** The pipeline of [normalizeSearchText] on a non-empty string. *)
Definition normalizePipeline (text : jsstring) : jsstring :=
  let s1 := toLowerCase text in
  let s2 := trim s1 in
  let s3 := normalizeNFD s2 in
  let s4 := removeAll isCombiningMark s3 in
  let s5 := replaceTable greekVariations s4 in
  let s6 := replaceAll isSlash 0x20 s5 in
  replaceRuns isWhiteSpace 0x20 false s6.

Definition normalizeSearchText (text : option jsstring) : jsstring :=
  match text with
  | Some (c :: r) => normalizePipeline (c :: r)
  | _ => []                              (* if (!text) return '' *)
  end.

Definition tokenize (text : option jsstring) : list jsstring :=
  let normalized := normalizeSearchText text in
  filter longEnough (split isSeparator normalized).

(** The inner loop of [matchesSearch]: does [searchToken] match one of
    [targetTokens]?  Each [break] is a [true]. *)
Fixpoint tokenMatched (searchToken : jsstring) (targetTokens : list jsstring)
  : bool :=
  match targetTokens with
  | [] => false
  | targetToken :: rest =>
      if str_eqb targetToken searchToken then true
      else if startsWith targetToken searchToken
              && (3 <=? length searchToken)%nat then true
      else if includes targetToken searchToken
              && (4 <=? length searchToken)%nat then true
      else tokenMatched searchToken rest
  end.

(** The outer loop: it returns [false] at the first search token that
    matches no target token, [true] after the last one. *)
Fixpoint allTokensMatched (searchTokens targetTokens : list jsstring)
  : bool :=
  match searchTokens with
  | [] => true
  | searchToken :: rest =>
      if negb (tokenMatched searchToken targetTokens) then false
      else allTokensMatched rest targetTokens
  end.

Definition matchesSearch (searchTerm targetText : option jsstring) : bool :=
  if falsy searchTerm || falsy targetText then false
  else
    let normalizedSearch := normalizeSearchText searchTerm in
    let normalizedTarget := normalizeSearchText targetText in
    if (length normalizedSearch <? 2)%nat then false
    else if includes normalizedTarget normalizedSearch then true
    else
      let searchTokens := tokenize searchTerm in
      if (length searchTokens =? 0)%nat then false
      else
        let targetTokens := tokenize targetText in
        if (length targetTokens =? 0)%nat then false
        else allTokensMatched searchTokens targetTokens.

(** [items] is [undefined] or an array. *)
Definition matchesSearchArray (searchTerm : option jsstring)
  (items : option (list (option jsstring))) : bool :=
  match items with
  | None => false
  | Some l =>
      if falsy searchTerm || (length l =? 0)%nat then false
      else existsb (fun item => matchesSearch searchTerm item) l
  end.

(** The interface [SearchableProduct].  A string may be [undefined] at
    run time, as for the parameters above; [tags?] may be absent; the
    three arrays declared without [?] are present. *)
Record SearchableProduct : Type := {
  name : option jsstring;
  nameEn : option jsstring;
  description : option jsstring;
  descriptionEn : option jsstring;                 (* descriptionEn? *)
  colors : list (option jsstring);
  materials : list (option jsstring);
  features : list (option jsstring);
  tags : option (list (option jsstring));          (* tags? *)
  category : option jsstring;                      (* category? *)
  subcategory : option jsstring                    (* subcategory? *)
}.

(** [searchTerm.trim().length === 0] *)
Definition isBlank (searchTerm : jsstring) : bool :=
  (length (trim searchTerm) =? 0)%nat.

(** [!searchTerm || searchTerm.trim().length === 0] *)
Definition noConstraint (searchTerm : option jsstring) : bool :=
  falsy searchTerm
  || match searchTerm with Some s => isBlank s | None => true end.

Definition searchProduct (product : option SearchableProduct)
  (searchTerm : option jsstring) : bool :=
  if noConstraint searchTerm then true
  else
    match product with
    | None => false
    | Some p =>
        let normalizedSearch := normalizeSearchText searchTerm in
        if (length normalizedSearch <? 2)%nat then false
        else if matchesSearch searchTerm (name p) then true
        else if matchesSearch searchTerm (nameEn p) then true
        else if matchesSearch searchTerm (description p) then true
        else if negb (falsy (descriptionEn p))
                && matchesSearch searchTerm (descriptionEn p) then true
        else if matchesSearchArray searchTerm (Some (colors p)) then true
        else if matchesSearchArray searchTerm (Some (materials p)) then true
        else if matchesSearchArray searchTerm (Some (features p)) then true
        else if match tags p with
                | Some _ => matchesSearchArray searchTerm (tags p)
                | None => false
                end then true
        else if negb (falsy (category p))
                && matchesSearch searchTerm (category p) then true
        else if negb (falsy (subcategory p))
                && matchesSearch searchTerm (subcategory p) then true
        else false
    end.
(** One [if (matchesSearch(searchTerm, x)) matches.push(entry)]. *)
Definition pushIfMatch (searchTerm x : option jsstring) (entry : jsstring)
  (matches : list jsstring) : list jsstring :=
  if matchesSearch searchTerm x then matches ++ [entry] else matches.

(** [items.forEach(item => { if (matchesSearch(searchTerm, item))
    matches.push(`label${item}`) })] *)
Definition pushEachMatch (searchTerm : option jsstring) (label : jsstring)
  (items : list (option jsstring)) (matches : list jsstring)
  : list jsstring :=
  fold_left
    (fun acc item =>
       pushIfMatch searchTerm item (label ++ interpolate item) acc)
    items matches.

(** Reading a property of an [undefined] product throws a TypeError. *)
Definition debugSearch (product : option SearchableProduct)
  (searchTerm : option jsstring) : completion (list jsstring) :=
  match product with
  | None => Throw TypeError
  | Some p =>
      let matches := [] in
      let matches :=
        pushIfMatch searchTerm (name p)
          (js "Name: " ++ interpolate (name p)) matches in
      let matches :=
        pushIfMatch searchTerm (nameEn p)
          (js "Name EN: " ++ interpolate (nameEn p)) matches in
      let matches :=
        pushIfMatch searchTerm (description p) (js "Description") matches in
      let matches :=
        pushEachMatch searchTerm (js "Color: ") (colors p) matches in
      let matches :=
        pushEachMatch searchTerm (js "Material: ") (materials p) matches in
      let matches :=
        pushEachMatch searchTerm (js "Feature: ") (features p) matches in
      Normal matches
  end.
End SearchUtils.

(* ================================================================== *)
(** ** A runtime for Latin and monotonic Greek text                    *)
(* ================================================================== *)

(** [toLowerCase] and [normalize('NFD')] as the Unicode character database
    defines them on strings whose code units lie in U+0000-U+00FF (Basic
    Latin, Latin-1 Supplement), U+0300-U+036F (combining diacritical
    marks) and U+0384-U+03CE (monotonic Greek); a code unit outside these
    blocks is left as it is.  It is the runtime of the worked examples. *)
Module Fragment.

(** Lowercase_Mapping of one code unit. *)
Definition lowerUnit (c : unit16) : unit16 :=
  if inRange 0x41 0x5A c || inRange 0xC0 0xD6 c || inRange 0xD8 0xDE c
     || inRange 0x0391 0x03A1 c || inRange 0x03A3 0x03AB c then c + 32
  else if c =? 0x0386 then 0x03AC
  else if inRange 0x0388 0x038A c then c + 37
  else if c =? 0x038C then 0x03CC
  else if inRange 0x038E 0x038F c then c + 63
  else c.

(** The property Cased. *)
Definition isCased (c : unit16) : bool :=
  inRange 0x41 0x5A c || inRange 0x61 0x7A c
  || (c =? 0xAA) || (c =? 0xB5) || (c =? 0xBA)
  || inRange 0xC0 0xD6 c || inRange 0xD8 0xF6 c || inRange 0xF8 0xFF c
  || (c =? 0x0345) || (c =? 0x0386) || inRange 0x0388 0x038A c
  || (c =? 0x038C) || inRange 0x038E 0x03A1 c || inRange 0x03A3 0x03CE c.

(** The property Case_Ignorable. *)
Definition isCaseIgnorable (c : unit16) : bool :=
  (c =? 0x27) || (c =? 0x2E) || (c =? 0x3A) || (c =? 0x5E) || (c =? 0x60)
  || (c =? 0xA8) || (c =? 0xAD) || (c =? 0xAF) || (c =? 0xB4)
  || (c =? 0xB7) || (c =? 0xB8) || inRange 0x0300 0x036F c
  || inRange 0x0384 0x0385 c || (c =? 0x0387).

(** Walking away from a capital sigma: is a cased letter reached through
    case-ignorable code units only? *)
Fixpoint reachesCased (s : jsstring) : bool :=
  match s with
  | [] => false
  | c :: r =>
      if isCaseIgnorable c then reachesCased r
      else isCased c
  end.

(** [before] holds the code units already read, the nearest first.  A
    capital sigma that ends a word becomes a final sigma (the condition
    Final_Sigma of SpecialCasing). *)
Fixpoint lowerFrom (before s : jsstring) : jsstring :=
  match s with
  | [] => []
  | c :: r =>
      (if (c =? 0x03A3) && reachesCased before && negb (reachesCased r)
       then 0x03C2 else lowerUnit c)
      :: lowerFrom (c :: before) r
  end.

Definition toLowerCase (s : jsstring) : jsstring := lowerFrom [] s.

(** Full canonical decompositions. *)
Definition decompositions : list (unit16 * jsstring) :=
  [ (0x00C0, [0x0041; 0x0300]); (0x00C1, [0x0041; 0x0301]); (0x00C2, [0x0041; 0x0302]);
  (0x00C3, [0x0041; 0x0303]); (0x00C4, [0x0041; 0x0308]); (0x00C5, [0x0041; 0x030A]);
  (0x00C7, [0x0043; 0x0327]); (0x00C8, [0x0045; 0x0300]); (0x00C9, [0x0045; 0x0301]);
  (0x00CA, [0x0045; 0x0302]); (0x00CB, [0x0045; 0x0308]); (0x00CC, [0x0049; 0x0300]);
  (0x00CD, [0x0049; 0x0301]); (0x00CE, [0x0049; 0x0302]); (0x00CF, [0x0049; 0x0308]);
  (0x00D1, [0x004E; 0x0303]); (0x00D2, [0x004F; 0x0300]); (0x00D3, [0x004F; 0x0301]);
  (0x00D4, [0x004F; 0x0302]); (0x00D5, [0x004F; 0x0303]); (0x00D6, [0x004F; 0x0308]);
  (0x00D9, [0x0055; 0x0300]); (0x00DA, [0x0055; 0x0301]); (0x00DB, [0x0055; 0x0302]);
  (0x00DC, [0x0055; 0x0308]); (0x00DD, [0x0059; 0x0301]); (0x00E0, [0x0061; 0x0300]);
  (0x00E1, [0x0061; 0x0301]); (0x00E2, [0x0061; 0x0302]); (0x00E3, [0x0061; 0x0303]);
  (0x00E4, [0x0061; 0x0308]); (0x00E5, [0x0061; 0x030A]); (0x00E7, [0x0063; 0x0327]);
  (0x00E8, [0x0065; 0x0300]); (0x00E9, [0x0065; 0x0301]); (0x00EA, [0x0065; 0x0302]);
  (0x00EB, [0x0065; 0x0308]); (0x00EC, [0x0069; 0x0300]); (0x00ED, [0x0069; 0x0301]);
  (0x00EE, [0x0069; 0x0302]); (0x00EF, [0x0069; 0x0308]); (0x00F1, [0x006E; 0x0303]);
  (0x00F2, [0x006F; 0x0300]); (0x00F3, [0x006F; 0x0301]); (0x00F4, [0x006F; 0x0302]);
  (0x00F5, [0x006F; 0x0303]); (0x00F6, [0x006F; 0x0308]); (0x00F9, [0x0075; 0x0300]);
  (0x00FA, [0x0075; 0x0301]); (0x00FB, [0x0075; 0x0302]); (0x00FC, [0x0075; 0x0308]);
  (0x00FD, [0x0079; 0x0301]); (0x00FF, [0x0079; 0x0308]); (0x0340, [0x0300]);
  (0x0341, [0x0301]); (0x0343, [0x0313]); (0x0344, [0x0308; 0x0301]);
  (0x0385, [0x00A8; 0x0301]); (0x0386, [0x0391; 0x0301]); (0x0387, [0x00B7]);
  (0x0388, [0x0395; 0x0301]); (0x0389, [0x0397; 0x0301]); (0x038A, [0x0399; 0x0301]);
  (0x038C, [0x039F; 0x0301]); (0x038E, [0x03A5; 0x0301]); (0x038F, [0x03A9; 0x0301]);
  (0x0390, [0x03B9; 0x0308; 0x0301]); (0x03AA, [0x0399; 0x0308]); (0x03AB, [0x03A5; 0x0308]);
  (0x03AC, [0x03B1; 0x0301]); (0x03AD, [0x03B5; 0x0301]); (0x03AE, [0x03B7; 0x0301]);
  (0x03AF, [0x03B9; 0x0301]); (0x03B0, [0x03C5; 0x0308; 0x0301]); (0x03CA, [0x03B9; 0x0308]);
  (0x03CB, [0x03C5; 0x0308]); (0x03CC, [0x03BF; 0x0301]); (0x03CD, [0x03C5; 0x0301]);
  (0x03CE, [0x03C9; 0x0301]) ].

Fixpoint decomposeUnit (table : list (unit16 * jsstring)) (c : unit16)
  : jsstring :=
  match table with
  | [] => [c]
  | (k, d) :: rest => if k =? c then d else decomposeUnit rest c
  end.

(** Canonical_Combining_Class. *)
Definition ccc (c : unit16) : Z :=
  if negb (inRange 0x0300 0x036F c) || (c =? 0x034F) then 0
  else if inRange 0x0334 0x0338 c then 1
  else if inRange 0x0321 0x0322 c || inRange 0x0327 0x0328 c then 202
  else if c =? 0x031B then 216
  else if inRange 0x0316 0x0319 c || inRange 0x031C 0x0320 c
          || inRange 0x0323 0x0326 c || inRange 0x0329 0x0333 c
          || inRange 0x0339 0x033C c || inRange 0x0347 0x0349 c
          || inRange 0x034D 0x034E c || inRange 0x0353 0x0356 c
          || inRange 0x0359 0x035A c then 220
  else if (c =? 0x0315) || (c =? 0x031A) || (c =? 0x0358) then 232
  else if (c =? 0x035C) || (c =? 0x035F) || (c =? 0x0362) then 233
  else if inRange 0x035D 0x035E c || inRange 0x0360 0x0361 c then 234
  else if c =? 0x0345 then 240
  else 230.

(** Canonical ordering: a mark moves in front of the marks of a higher
    class that precede it.  [out] is the ordered text, the last code unit
    first. *)
Fixpoint placeMark (c : unit16) (out : jsstring) : jsstring :=
  match out with
  | [] => [c]
  | p :: r =>
      if (0 <? ccc c) && (ccc c <? ccc p) then p :: placeMark c r
      else c :: out
  end.

Definition canonicalOrder (s : jsstring) : jsstring :=
  rev (fold_left (fun out c => placeMark c out) s []).

Definition normalizeNFD (s : jsstring) : jsstring :=
  canonicalOrder (flat_map (decomposeUnit decompositions) s).

End Fragment.

#[export] Instance fragmentRuntime : Runtime := {
  toLowerCase := Fragment.toLowerCase;
  normalizeNFD := Fragment.normalizeNFD
}.

(* ================================================================== *)
(** ** The functions on untyped values                                 *)
(* ================================================================== *)

(** At run time the parameters are JavaScript values of any kind, and a
    method call or a property read on the wrong kind of value throws a
    TypeError.  [Dynamic] gives the six functions on such values, every
    call that can throw being one that can return [Throw]; the functions
    above are what they compute on strings, arrays of strings and
    products. *)
Module Dynamic.

#[warnings="-register-all"] Inductive value : Type :=
| VUndefined
| VNull
| VBoolean (b : bool)
| VNumber (n : Z)
| VString (s : jsstring)
| VArray (items : list value)
| VObject (props : list (String.string * value)).

(** [!!v] *)
Definition truthy (v : value) : bool :=
  match v with
  | VUndefined | VNull => false
  | VBoolean b => b
  | VNumber n => negb (n =? 0)
  | VString s => negb (length s =? 0)%nat
  | VArray _ | VObject _ => true
  end.

Definition bind {A B : Type} (c : completion A) (k : A -> completion B)
  : completion B :=
  match c with
  | Normal a => k a
  | Throw e => Throw e
  end.

Notation "x <- c ;; k" := (bind c (fun x => k))
  (at level 61, c at next level, right associativity).

(** The receiver of a string method ([toLowerCase], [trim]): the method
    is missing on any other value. *)
Definition asString (v : value) : completion jsstring :=
  match v with
  | VString s => Normal s
  | _ => Throw TypeError
  end.

(** The receiver of an array method ([some], [forEach]). *)
Definition asArray (v : value) : completion (list value) :=
  match v with
  | VArray items => Normal items
  | _ => Throw TypeError
  end.

Fixpoint lookup (key : String.string) (props : list (String.string * value))
  : value :=
  match props with
  | [] => VUndefined
  | (k, v) :: rest => if String.eqb k key then v else lookup key rest
  end.

(** [v.key] for a field name of [SearchableProduct]: reading it from
    [undefined] or [null] throws, an object gives the field or
    [undefined], any other value has no such property. *)
Definition get (v : value) (key : String.string) : completion value :=
  match v with
  | VUndefined | VNull => Throw TypeError
  | VObject props => Normal (lookup key props)
  | _ => Normal VUndefined
  end.

(** [c1 || c2] over tests that may throw, as in [if (c1) return true;
    if (c2) return true; ...]. *)
Definition orElse (c : completion bool) (rest : completion bool)
  : completion bool :=
  b <- c ;; if b then Normal true else rest.

Section Functions.
Context {R : Runtime}.

(** [`${v}`] of a value that is not a string is left to the runtime. *)
Variable toDisplay : value -> jsstring.

Definition display (v : value) : jsstring :=
  match v with
  | VString s => s
  | _ => toDisplay v
  end.

Definition normalizeSearchText (text : value) : completion jsstring :=
  if negb (truthy text) then Normal []
  else s <- asString text ;; Normal (normalizePipeline s).

Definition tokenize (text : value) : completion (list jsstring) :=
  normalized <- normalizeSearchText text ;;
  Normal (filter longEnough (split isSeparator normalized)).

Definition matchesSearch (searchTerm targetText : value) : completion bool :=
  if negb (truthy searchTerm) || negb (truthy targetText) then Normal false
  else
    normalizedSearch <- normalizeSearchText searchTerm ;;
    normalizedTarget <- normalizeSearchText targetText ;;
    if (length normalizedSearch <? 2)%nat then Normal false
    else if includes normalizedTarget normalizedSearch then Normal true
    else
      searchTokens <- tokenize searchTerm ;;
      if (length searchTokens =? 0)%nat then Normal false
      else
        targetTokens <- tokenize targetText ;;
        if (length targetTokens =? 0)%nat then Normal false
        else Normal (allTokensMatched searchTokens targetTokens).

(** [items.some(f)]: it stops at the first item [f] accepts. *)
Fixpoint some (f : value -> completion bool) (items : list value)
  : completion bool :=
  match items with
  | [] => Normal false
  | item :: rest => b <- f item ;; if b then Normal true else some f rest
  end.

(** After [!searchTerm || !items], [items.length === 0] is false for
    every value but an empty array and an object whose [length] is 0,
    and [items.some] is a function on arrays only. *)
Definition matchesSearchArray (searchTerm items : value) : completion bool :=
  if negb (truthy searchTerm) || negb (truthy items) then Normal false
  else
    match items with
    | VArray l =>
        if (length l =? 0)%nat then Normal false
        else some (fun item => matchesSearch searchTerm item) l
    | VObject props =>
        match lookup "length" props with
        | VNumber 0 => Normal false
        | _ => Throw TypeError
        end
    | _ => Throw TypeError
    end.

(** [x && matchesSearch(searchTerm, x)] and its array form. *)
Definition whenPresent (x : value) (test : value -> completion bool)
  : completion bool :=
  if truthy x then test x else Normal false.

Definition searchProduct (product searchTerm : value) : completion bool :=
  noConstraint <-
    (if negb (truthy searchTerm) then Normal true
     else s <- asString searchTerm ;; Normal (length (trim s) =? 0)%nat) ;;
  if noConstraint then Normal true
  else if negb (truthy product) then Normal false
  else
    normalizedSearch <- normalizeSearchText searchTerm ;;
    if (length normalizedSearch <? 2)%nat then Normal false
    else
      orElse (x <- get product "name" ;; matchesSearch searchTerm x)
      (orElse (x <- get product "nameEn" ;; matchesSearch searchTerm x)
      (orElse (x <- get product "description" ;; matchesSearch searchTerm x)
      (orElse (x <- get product "descriptionEn" ;;
               whenPresent x (matchesSearch searchTerm))
      (orElse (x <- get product "colors" ;; matchesSearchArray searchTerm x)
      (orElse (x <- get product "materials" ;; matchesSearchArray searchTerm x)
      (orElse (x <- get product "features" ;; matchesSearchArray searchTerm x)
      (orElse (x <- get product "tags" ;;
               whenPresent x (matchesSearchArray searchTerm))
      (orElse (x <- get product "category" ;;
               whenPresent x (matchesSearch searchTerm))
      (orElse (x <- get product "subcategory" ;;
               whenPresent x (matchesSearch searchTerm))
      (Normal false)))))))))).

Definition pushIfMatch (searchTerm x : value) (entry : jsstring)
  (matches : list jsstring) : completion (list jsstring) :=
  m <- matchesSearch searchTerm x ;;
  Normal (if m then matches ++ [entry] else matches).

(** The body of [items.forEach(...)] of [debugSearch] over the items. *)
Fixpoint pushEachMatch (searchTerm : value) (label : jsstring)
  (items : list value) (matches : list jsstring)
  : completion (list jsstring) :=
  match items with
  | [] => Normal matches
  | item :: rest =>
      matches' <- pushIfMatch searchTerm item (label ++ display item)
                              matches ;;
      pushEachMatch searchTerm label rest matches'
  end.

Definition debugSearch (product searchTerm : value)
  : completion (list jsstring) :=
  x <- get product "name" ;;
  matches <- pushIfMatch searchTerm x (js "Name: " ++ display x) [] ;;
  x <- get product "nameEn" ;;
  matches <- pushIfMatch searchTerm x (js "Name EN: " ++ display x) matches ;;
  x <- get product "description" ;;
  matches <- pushIfMatch searchTerm x (js "Description") matches ;;
  x <- get product "colors" ;;
  items <- asArray x ;;
  matches <- pushEachMatch searchTerm (js "Color: ") items matches ;;
  x <- get product "materials" ;;
  items <- asArray x ;;
  matches <- pushEachMatch searchTerm (js "Material: ") items matches ;;
  x <- get product "features" ;;
  items <- asArray x ;;
  matches <- pushEachMatch searchTerm (js "Feature: ") items matches ;;
  Normal matches.
End Functions.

(** The values of the documented domain: a string or [undefined], an
    array of them, a product. *)
Definition ofText (text : option jsstring) : value :=
  match text with
  | Some s => VString s
  | None => VUndefined
  end.

Definition ofItems (items : list (option jsstring)) : value :=
  VArray (map ofText items).

Definition ofOptionalItems (items : option (list (option jsstring))) : value :=
  match items with
  | Some l => ofItems l
  | None => VUndefined
  end.

Definition ofProduct (p : SearchableProduct) : value :=
  VObject
    [ ("name", ofText (name p)); ("nameEn", ofText (nameEn p));
      ("description", ofText (description p));
      ("descriptionEn", ofText (descriptionEn p));
      ("colors", ofItems (colors p)); ("materials", ofItems (materials p));
      ("features", ofItems (features p));
      ("tags", ofOptionalItems (tags p));
      ("category", ofText (category p));
      ("subcategory", ofText (subcategory p)) ]%string.

Definition ofOptionalProduct (product : option SearchableProduct) : value :=
  match product with
  | Some p => ofProduct p
  | None => VUndefined
  end.

End Dynamic.

(* ================================================================== *)
(** ** The vocabulary of the specification                             *)
(* ================================================================== *)

(** [s] contains [p] as a substring. *)
Definition IsSubstring (p s : jsstring) : Prop :=
  exists pre post, s = pre ++ p ++ post.

(** [s] starts with [p]. *)
Definition IsPrefix (p s : jsstring) : Prop :=
  exists post, s = p ++ post.

(** A search token matches a target token: they are equal, or the target
    token starts with a search token of three code units or more, or it
    contains a search token of four code units or more. *)
Definition TokenMatches (searchToken targetToken : jsstring) : Prop :=
  targetToken = searchToken
  \/ (IsPrefix searchToken targetToken /\ (3 <= length searchToken)%nat)
  \/ (IsSubstring searchToken targetToken /\ (4 <= length searchToken)%nat).

(** A string or array element that is empty or [undefined]. *)
Definition EmptyOrUndefined (text : option jsstring) : Prop :=
  text = undefined \/ text = Some [].

(** A string of white space only (the empty string is one). *)
Definition WhiteSpaceOnly (s : jsstring) : Prop :=
  Forall (fun c => isWhiteSpace c = true) s.

(** Arrays of strings from literals. *)
Definition strings (literals : list String.string) : list (option jsstring) :=
  map (fun l => Some (js l)) literals.

(** What one code unit becomes under the chain of replacements. *)
Definition applyTable (table : list (unit16 * unit16)) (c : unit16) : unit16 :=
  fold_left (fun x p => if fst p =? x then snd p else x) table c.

(** [c] is one of the code units the table replaces. *)
Definition isVariation (c : unit16) : bool :=
  existsb (fun p => fst p =? c) greekVariations.

(** The shape of a normalized string: no combining mark, no accented
    Greek vowel or final sigma, no slash, and white space only as single
    spaces. *)
Record Normalized (t : jsstring) : Prop := {
  no_mark : Forall (fun c => isCombiningMark c = false) t;
  no_variation : Forall (fun c => isVariation c = false) t;
  no_slash : Forall (fun c => isSlash c = false) t;
  spaces_collapsed : replaceRuns isWhiteSpace 0x20 false t = t
}.

(** The runtime leaves [s] as it is: [s] is in lower case and canonically
    decomposed already. *)
Definition RuntimeKeeps {R : Runtime} (s : jsstring) : Prop :=
  toLowerCase s = s /\ normalizeNFD s = s.

(** The entry a field contributes: one when it matches, none otherwise. *)
Definition entryIfMatch {R : Runtime} (searchTerm x : option jsstring)
  (entry : jsstring) : list jsstring :=
  if matchesSearch searchTerm x then [entry] else [].

(** The code units of [isWhiteSpace]. *)
Definition whiteSpaceUnits : list unit16 :=
  [ 0x09; 0x0A; 0x0B; 0x0C; 0x0D; 0x20; 0xA0; 0x1680;
    0x2000; 0x2001; 0x2002; 0x2003; 0x2004; 0x2005; 0x2006; 0x2007;
    0x2008; 0x2009; 0x200A; 0x2028; 0x2029; 0x202F; 0x205F; 0x3000;
    0xFEFF ].

(** A catalogue entry. *)
Definition washbasin : SearchableProduct := {|
  name := Some (js "Νιπτήρας Luna");
  nameEn := Some (js "Luna washbasin");
  description := Some (js "Επιτοίχιος νιπτήρας");
  descriptionEn := Some (js "Wall-hung washbasin");
  colors := strings ["white"; "black"]%string;
  materials := strings ["ceramic"]%string;
  features := strings ["overflow"]%string;
  tags := Some (strings ["bathroom"]%string);
  category := Some (js "furniture");
  subcategory := Some (js "basins")
|}.

(** The accented vowels of [greekVariations]: all of the table but its
    last line, the final sigma. *)
Definition isAccentedVowel (c : unit16) : bool :=
  existsb (fun p => fst p =? c) (firstn 9 greekVariations).

(** Two arrays with the same items, in any order and any number. *)
Definition SameItems {A : Type} (l l' : list A) : Prop :=
  forall x, In x l <-> In x l'.

(** One of the ten fields [searchProduct] reads matches the search term. *)
Definition SomeFieldMatches {R : Runtime} (p : SearchableProduct)
  (searchTerm : option jsstring) : Prop :=
  matchesSearch searchTerm (name p) = true
  \/ matchesSearch searchTerm (nameEn p) = true
  \/ matchesSearch searchTerm (description p) = true
  \/ (exists text, descriptionEn p = Some text
        /\ matchesSearch searchTerm (Some text) = true)
  \/ matchesSearchArray searchTerm (Some (colors p)) = true
  \/ matchesSearchArray searchTerm (Some (materials p)) = true
  \/ matchesSearchArray searchTerm (Some (features p)) = true
  \/ (exists items, tags p = Some items
        /\ matchesSearchArray searchTerm (Some items) = true)
  \/ (exists text, category p = Some text
        /\ matchesSearch searchTerm (Some text) = true)
  \/ (exists text, subcategory p = Some text
        /\ matchesSearch searchTerm (Some text) = true).

(** Two products that differ only in the order and the repetitions of
    their colours, materials, features and tags. *)
Definition SameUpToOrder (p p' : SearchableProduct) : Prop :=
  name p = name p' /\ nameEn p = nameEn p'
  /\ description p = description p' /\ descriptionEn p = descriptionEn p'
  /\ SameItems (colors p) (colors p')
  /\ SameItems (materials p) (materials p')
  /\ SameItems (features p) (features p')
  /\ match tags p, tags p' with
     | Some l, Some l' => SameItems l l'
     | None, None => True
     | _, _ => False
     end
  /\ category p = category p' /\ subcategory p = subcategory p'.

(** The washbasin with its arrays in another order. *)
Definition washbasinReordered : SearchableProduct := {|
  name := name washbasin;
  nameEn := nameEn washbasin;
  description := description washbasin;
  descriptionEn := descriptionEn washbasin;
  colors := strings ["black"; "white"; "black"]%string;
  materials := materials washbasin;
  features := features washbasin;
  tags := Some (strings ["bathroom"; "bathroom"]%string);
  category := category washbasin;
  subcategory := subcategory washbasin
|}.

(* ================================================================== *)
(** ** Strings                                                         *)
(* ================================================================== *)

Lemma str_eqb_eq (a b : jsstring) : str_eqb a b = true <-> a = b.
Proof.
  revert b; induction a as [|x a IH]; intros [|y b]; simpl;
    try (split; [discriminate | discriminate]); try tauto.
  rewrite andb_true_iff, Z.eqb_eq, IH.
  split; [intros [-> ->]; reflexivity | intros H; injection H; auto].
Qed.

Lemma startsWith_spec (s p : jsstring) :
  startsWith s p = true <-> IsPrefix p s.
Proof.
  unfold IsPrefix. revert s; induction p as [|x p IH]; intros s; simpl.
  - split; [intros _; exists s; reflexivity | reflexivity].
  - destruct s as [|y s].
    + split; [discriminate | intros [post H]; discriminate].
    + rewrite andb_true_iff, Z.eqb_eq, IH. split.
      * intros [-> [post ->]]. exists post. reflexivity.
      * intros [post H]. injection H as -> ->. split; eauto.
Qed.

Lemma includes_spec (s p : jsstring) :
  includes s p = true <-> IsSubstring p s.
Proof.
  unfold IsSubstring. induction s as [|y s IH]; simpl.
  - rewrite orb_false_r, startsWith_spec. split.
    + intros [post ->]. exists [], post. reflexivity.
    + intros [pre [post H]]. symmetry in H.
      apply app_eq_nil in H as [-> H]. apply app_eq_nil in H as [-> ->].
      exists []. reflexivity.
  - rewrite orb_true_iff, startsWith_spec, IH. split.
    + intros [[post ->] | [pre [post ->]]].
      * exists [], post. reflexivity.
      * exists (y :: pre), post. reflexivity.
    + intros [[|z pre] [post H]].
      * left. exists post. exact H.
      * right. injection H as -> ->. eauto.
Qed.

Lemma includes_refl (s : jsstring) : includes s s = true.
Proof.
  apply includes_spec. exists [], []. simpl. now rewrite app_nil_r.
Qed.

Lemma falsy_spec (text : option jsstring) :
  falsy text = true <-> EmptyOrUndefined text.
Proof.
  unfold EmptyOrUndefined. destruct text as [[|c r]|]; simpl.
  - split; auto.
  - split; [discriminate | intros [H | H]; discriminate].
  - split; auto.
Qed.

(* ================================================================== *)
(** ** matchesSearch                                                   *)
(* ================================================================== *)

Section MatchesSearch.
Context {R : Runtime}.

Lemma normalizeSearchText_falsy (text : option jsstring) :
  falsy text = true -> normalizeSearchText text = [].
Proof. destruct text as [[|c r]|]; simpl; [reflexivity|discriminate|reflexivity]. Qed.

(** The inner loop finds a target token exactly when one matches. *)
Lemma tokenMatched_spec (searchToken : jsstring) (targetTokens : list jsstring) :
  tokenMatched searchToken targetTokens = true <->
  exists targetToken,
    In targetToken targetTokens /\ TokenMatches searchToken targetToken.
Proof.
  unfold TokenMatches.
  induction targetTokens as [|t rest IH]; cbn [tokenMatched In].
  - split; [discriminate | intros [t [[] _]]].
  - destruct (str_eqb t searchToken) eqn:Eeq.
    { apply str_eqb_eq in Eeq. split; [|reflexivity].
      intros _. exists t. auto. }
    destruct (startsWith t searchToken && (3 <=? length searchToken)%nat)
      eqn:Epre.
    { apply andb_true_iff in Epre as [Hp Hl].
      apply startsWith_spec in Hp. apply Nat.leb_le in Hl.
      split; [|reflexivity]. intros _. exists t. auto. }
    destruct (includes t searchToken && (4 <=? length searchToken)%nat)
      eqn:Einf.
    { apply andb_true_iff in Einf as [Hp Hl].
      apply includes_spec in Hp. apply Nat.leb_le in Hl.
      split; [|reflexivity]. intros _. exists t. auto. }
    rewrite IH. split.
    + intros [t' [Hin Hm]]. exists t'. auto.
    + intros [t' [[<- | Hin] Hm]]; [|eauto].
      exfalso. destruct Hm as [He | [[Hp Hl] | [Hp Hl]]].
      * apply str_eqb_eq in He. congruence.
      * apply startsWith_spec in Hp. apply Nat.leb_le in Hl.
        rewrite Hp, Hl in Epre. discriminate.
      * apply includes_spec in Hp. apply Nat.leb_le in Hl.
        rewrite Hp, Hl in Einf. discriminate.
Qed.

(** The outer loop succeeds exactly when every search token is matched. *)
Lemma allTokensMatched_spec (searchTokens targetTokens : list jsstring) :
  allTokensMatched searchTokens targetTokens = true <->
  forall searchToken, In searchToken searchTokens ->
    exists targetToken,
      In targetToken targetTokens /\ TokenMatches searchToken targetToken.
Proof.
  induction searchTokens as [|t rest IH]; simpl.
  - split; [intros _ t [] | reflexivity].
  - destruct (tokenMatched t targetTokens) eqn:E; simpl.
    + rewrite IH. apply tokenMatched_spec in E. split.
      * intros H t' [<- | Hin]; auto.
      * intros H t' Hin. auto.
    + split; [discriminate|]. intros H.
      assert (Ht : tokenMatched t targetTokens = true)
        by (apply tokenMatched_spec; auto).
      congruence.
Qed.

Lemma length_zero_eqb {A : Type} (l : list A) :
  (length l =? 0)%nat = true <-> l = [].
Proof. destruct l; simpl; split; congruence. Qed.

(** C4. [matchesSearch] fails closed: it returns [false] whenever the
    search term is empty or undefined, or the target text is empty or
    undefined, or the normalized search term has fewer than two code
    units. *)
Theorem matchesSearch_fails_closed
  (searchTerm targetText : option jsstring) :
  EmptyOrUndefined searchTerm
  \/ EmptyOrUndefined targetText
  \/ (length (normalizeSearchText searchTerm) < 2)%nat ->
  matchesSearch searchTerm targetText = false.
Proof.
  unfold matchesSearch. intros [H | [H | H]].
  - apply falsy_spec in H. now rewrite H.
  - apply falsy_spec in H. rewrite H. now rewrite orb_true_r.
  - apply Nat.ltb_lt in H. rewrite H.
    now destruct (falsy searchTerm || falsy targetText).
Qed.

(** C3. For a non-empty search term and a non-empty target text, when
    the normalized search term has two code units or more,
    [matchesSearch] returns [true] if and only if the normalized target
    contains the normalized search term, or both inputs have tokens and
    every search token matches at least one target token (equal; or a
    prefix, for a search token of length three or more; or a substring,
    for a search token of length four or more). *)
Theorem matchesSearch_characterised (searchTerm targetText : jsstring) :
  searchTerm <> [] ->
  targetText <> [] ->
  (2 <= length (normalizeSearchText (Some searchTerm)))%nat ->
  matchesSearch (Some searchTerm) (Some targetText) = true <->
  IsSubstring (normalizeSearchText (Some searchTerm))
              (normalizeSearchText (Some targetText))
  \/ (tokenize (Some searchTerm) <> []
      /\ tokenize (Some targetText) <> []
      /\ forall searchToken, In searchToken (tokenize (Some searchTerm)) ->
           exists targetToken,
             In targetToken (tokenize (Some targetText))
             /\ TokenMatches searchToken targetToken).
Proof.
  intros Hs Ht.
  assert (Fs : falsy (Some searchTerm) = false)
    by (destruct searchTerm; [contradiction | reflexivity]).
  assert (Ft : falsy (Some targetText) = false)
    by (destruct targetText; [contradiction | reflexivity]).
  generalize dependent (Some targetText). intros b Ft.
  generalize dependent (Some searchTerm). intros a Fs Hlen.
  unfold matchesSearch. cbv zeta. rewrite Fs, Ft. cbn [orb].
  apply Nat.ltb_ge in Hlen. rewrite Hlen.
  destruct (includes (normalizeSearchText b) (normalizeSearchText a))
    eqn:Einc.
  { apply includes_spec in Einc. tauto. }
  assert (Hno : ~ IsSubstring (normalizeSearchText a) (normalizeSearchText b)).
  { intros H. apply includes_spec in H. congruence. }
  destruct (length (tokenize a) =? 0)%nat eqn:E1.
  { apply length_zero_eqb in E1. split; [discriminate|].
    intros [H | [H _]]; [tauto | congruence]. }
  destruct (length (tokenize b) =? 0)%nat eqn:E2.
  { apply length_zero_eqb in E2. split; [discriminate|].
    intros [H | [_ [H _]]]; [tauto | congruence]. }
  rewrite allTokensMatched_spec. split.
  - intros H. right. repeat split; auto.
    + intros H1. apply length_zero_eqb in H1. congruence.
    + intros H1. apply length_zero_eqb in H1. congruence.
  - intros [H | [_ [_ H]]]; [tauto | exact H].
Qed.

(** C10. [matchesSearch] is reflexive on valid terms: a string whose
    normalized form has two code units or more matches itself. *)
Theorem matchesSearch_reflexive (s : option jsstring) :
  (2 <= length (normalizeSearchText s))%nat ->
  matchesSearch s s = true.
Proof.
  intros Hlen. unfold matchesSearch.
  destruct (falsy s) eqn:Ef.
  - rewrite (normalizeSearchText_falsy s Ef) in Hlen. simpl in Hlen. lia.
  - cbn [orb]. apply Nat.ltb_ge in Hlen. rewrite Hlen.
    now rewrite includes_refl.
Qed.
End MatchesSearch.

(* ================================================================== *)
(** ** normalizeSearchText                                             *)
(* ================================================================== *)

Section Replacements.
Variable cls : unit16 -> bool.
Variable P : unit16 -> Prop.

Lemma removeAll_none (s : jsstring) :
  Forall (fun c => cls c = false) (removeAll cls s).
Proof.
  unfold removeAll. apply Forall_forall. intros c Hin.
  apply filter_In in Hin as [_ H]. now apply negb_true_iff in H.
Qed.

Lemma removeAll_fixed (s : jsstring) :
  Forall (fun c => cls c = false) s -> removeAll cls s = s.
Proof.
  unfold removeAll. induction 1 as [|c s Hc _ IH]; simpl; [reflexivity|].
  now rewrite Hc, IH.
Qed.

Lemma replaceAll_fixed (to : unit16) (s : jsstring) :
  Forall (fun c => cls c = false) s -> replaceAll cls to s = s.
Proof.
  unfold replaceAll. induction 1 as [|c s Hc _ IH]; simpl; [reflexivity|].
  now rewrite Hc, IH.
Qed.

Lemma replaceAll_none (to : unit16) (s : jsstring) :
  cls to = false -> Forall (fun c => cls c = false) (replaceAll cls to s).
Proof.
  intros Hto. unfold replaceAll. induction s as [|c s IH]; simpl;
    constructor; auto.
  destruct (cls c) eqn:E; auto.
Qed.

Lemma replaceAll_keeps (to : unit16) (s : jsstring) :
  P to -> Forall P s -> Forall P (replaceAll cls to s).
Proof.
  intros Hto. unfold replaceAll. induction 1 as [|c s Hc _ IH]; simpl;
    constructor; auto.
  destruct (cls c); auto.
Qed.

Lemma replaceRuns_keeps (to : unit16) (inRun : bool) (s : jsstring) :
  P to -> Forall P s -> Forall P (replaceRuns cls to inRun s).
Proof.
  intros Hto H. revert inRun.
  induction H as [|c s Hc _ IH]; intros inRun; simpl; [constructor|].
  destruct (cls c); [destruct inRun|]; auto.
Qed.

(** Replacing the runs a second time changes nothing. *)
Lemma replaceRuns_twice (to : unit16) (s : jsstring) :
  cls to = true ->
  forall inRun again : bool,
    (again = true -> inRun = true) ->
    replaceRuns cls to again (replaceRuns cls to inRun s)
    = replaceRuns cls to inRun s.
Proof.
  intros Hto. induction s as [|c s IH]; intros inRun again Himp;
    [reflexivity|].
  cbn [replaceRuns]. destruct (cls c) eqn:Ec.
  - destruct inRun.
    + apply IH. auto.
    + destruct again; [discriminate (Himp eq_refl)|].
      cbn [replaceRuns]. rewrite Hto. f_equal. apply IH. auto.
  - cbn [replaceRuns]. rewrite Ec. f_equal. apply IH. discriminate.
Qed.
End Replacements.

Lemma replaceTable_map (table : list (unit16 * unit16)) (s : jsstring) :
  replaceTable table s = map (applyTable table) s.
Proof.
  unfold replaceTable, applyTable. revert s.
  induction table as [|[k v] table IH]; intros s; simpl.
  - now rewrite map_id.
  - rewrite IH. unfold replaceAll. rewrite map_map. reflexivity.
Qed.

(** No replaced code unit is left after the chain, and a code unit the
    table does not mention is left alone. *)
Lemma applyTable_greekVariations (c : unit16) :
  isVariation (applyTable greekVariations c) = false
  /\ (isVariation c = false -> applyTable greekVariations c = c).
Proof.
  unfold isVariation, applyTable, greekVariations.
  cbn [fold_left existsb fst snd].
  repeat match goal with
         | |- context [?k =? c] =>
             destruct (Z.eqb_spec k c) as [<- | ?];
             [vm_compute; split; [reflexivity | discriminate] |]
         end.
  split; [|reflexivity].
  repeat match goal with
         | H : ?k <> c |- _ =>
             apply Z.eqb_neq in H; rewrite H; clear H
         end.
  reflexivity.
Qed.

Lemma replaceTable_none (s : jsstring) :
  Forall (fun c => isVariation c = false) (replaceTable greekVariations s).
Proof.
  rewrite replaceTable_map. apply Forall_forall. intros c Hin.
  apply in_map_iff in Hin as [x [<- _]]. apply applyTable_greekVariations.
Qed.

Lemma replaceTable_fixed (s : jsstring) :
  Forall (fun c => isVariation c = false) s ->
  replaceTable greekVariations s = s.
Proof.
  rewrite replaceTable_map. induction 1 as [|c s Hc _ IH]; simpl;
    [reflexivity|].
  rewrite IH. f_equal. now apply applyTable_greekVariations.
Qed.

Lemma replaceTable_keeps (P : unit16 -> Prop) (s : jsstring) :
  Forall (fun p => P (snd p)) greekVariations ->
  Forall P s -> Forall P (replaceTable greekVariations s).
Proof.
  unfold replaceTable. generalize greekVariations as table.
  intros table Ht. revert s.
  induction Ht as [|[k v] table Hv _ IH]; intros s Hs; simpl; [exact Hs|].
  apply IH. apply replaceAll_keeps; assumption.
Qed.

Section NormalizeSearchText.
Context {R : Runtime}.

Lemma normalizePipeline_Normalized (text : jsstring) :
  Normalized (normalizePipeline text).
Proof.
  unfold normalizePipeline. cbv zeta. split.
  - apply replaceRuns_keeps; [reflexivity|].
    apply replaceAll_keeps; [reflexivity|].
    apply replaceTable_keeps; [repeat constructor|].
    apply removeAll_none.
  - apply replaceRuns_keeps; [reflexivity|].
    apply replaceAll_keeps; [reflexivity|].
    apply replaceTable_none.
  - apply replaceRuns_keeps; [reflexivity|].
    apply replaceAll_none. reflexivity.
  - apply replaceRuns_twice; [reflexivity | auto].
Qed.

Lemma normalizeSearchText_Normalized (text : option jsstring) :
  Normalized (normalizeSearchText text).
Proof.
  destruct text as [[|c r]|]; simpl;
    try apply normalizePipeline_Normalized;
    split; constructor.
Qed.

(** A normalized string that the runtime leaves alone is a fixed point. *)
Lemma normalizeSearchText_fixed (t : jsstring) :
  Normalized t ->
  toLowerCase t = t -> trim t = t -> normalizeNFD t = t ->
  normalizeSearchText (Some t) = t.
Proof.
  intros [Hm Hv Hs Hr] Hlow Htrim Hnfd.
  destruct t as [|c r]; [reflexivity|].
  cbn [normalizeSearchText]. unfold normalizePipeline. cbv zeta.
  rewrite Hlow, Htrim, Hnfd.
  rewrite (removeAll_fixed _ _ Hm), (replaceTable_fixed _ Hv).
  rewrite (replaceAll_fixed _ _ _ Hs). exact Hr.
Qed.

(** The other steps are idempotent: where the normalized form [t] of
    [s] has no white space at either end and is left unchanged by the
    runtime's lowercasing and canonical decomposition, normalizing [t]
    again gives [t]. *)
Theorem normalizeSearchText_idempotent_on_trimmed (s : option jsstring) :
  let t := normalizeSearchText s in
  toLowerCase t = t -> trim t = t -> normalizeNFD t = t ->
  normalizeSearchText (Some t) = t.
Proof.
  intros t. apply normalizeSearchText_fixed.
  apply normalizeSearchText_Normalized.
Qed.

Lemma normalizeSearchText_nonempty (text : jsstring) :
  text <> [] -> normalizeSearchText (Some text) = normalizePipeline text.
Proof. destruct text; [contradiction | reflexivity]. Qed.

End NormalizeSearchText.

(* ================================================================== *)
(** ** tokenize                                                        *)
(* ================================================================== *)

Section Split.
Variable cls : unit16 -> bool.

(** A string without a separator is one piece. *)
Lemma splitRuns_word (word cur : jsstring) :
  Forall (fun c => cls c = false) word ->
  splitRuns cls false cur word = [cur ++ word].
Proof.
  intros H. revert cur.
  induction H as [|c w Hc _ IH]; intros cur; cbn [splitRuns].
  - now rewrite app_nil_r.
  - rewrite Hc, IH, <- app_assoc. reflexivity.
Qed.

(** No piece holds a separator. *)
Lemma splitRuns_pieces (s cur : jsstring) (inRun : bool) :
  Forall (fun c => cls c = false) cur ->
  Forall (Forall (fun c => cls c = false)) (splitRuns cls inRun cur s).
Proof.
  revert cur inRun.
  induction s as [|c s IH]; intros cur inRun Hcur; cbn [splitRuns].
  - constructor; [exact Hcur | constructor].
  - destruct (cls c) eqn:Ec.
    + destruct inRun; [apply IH; exact Hcur|].
      constructor; [exact Hcur | apply IH; constructor].
    + apply IH. apply Forall_app. split; [exact Hcur|].
      constructor; [exact Ec | constructor].
Qed.

(** Whether a run of separators has just been read does not change the
    tokens that are kept. *)
Lemma splitRuns_inRun (s : jsstring) :
  filter longEnough (splitRuns cls true [] s)
  = filter longEnough (splitRuns cls false [] s).
Proof.
  destruct s as [|c s]; [reflexivity|].
  cbn [splitRuns]. destruct (cls c); reflexivity.
Qed.

(** A separator cuts the string: the tokens are those of the left part
    followed by those of the right part. *)
Lemma splitRuns_cut (sep : unit16) (right : jsstring) :
  cls sep = true ->
  forall (left cur : jsstring) (inRun : bool),
    (inRun = true -> cur = []) ->
    filter longEnough (splitRuns cls inRun cur (left ++ sep :: right))
    = filter longEnough (splitRuns cls inRun cur left)
      ++ filter longEnough (splitRuns cls true [] right).
Proof.
  intros Hsep. induction left as [|c left IH]; intros cur inRun Hcur.
  - cbn [app splitRuns]. rewrite Hsep. destruct inRun.
    + rewrite (Hcur eq_refl). reflexivity.
    + cbn [filter]. destruct (longEnough cur); reflexivity.
  - cbn [app splitRuns]. destruct (cls c).
    + destruct inRun.
      * apply IH. exact Hcur.
      * cbn [filter]. rewrite (IH [] true (fun _ => eq_refl)).
        destruct (longEnough cur); reflexivity.
    + apply IH. discriminate.
Qed.
End Split.

Section Tokenize.
Context {R : Runtime}.

(** C7. [tokenize] normalizes its input, splits the result on runs of
    separators (white space, hyphen, slash, comma) and keeps the pieces
    of two code units or more: every token has length two or more and
    holds no separator; a string without separators gives itself, or
    nothing when it is too short; and a separator cuts the string, the
    tokens of the left part coming first, those of the right part next
    (order of occurrence, duplicates kept).  On a runtime that leaves
    these strings alone, "white/led-light, panel" gives white, led,
    light, panel and "a b" gives no token. *)
Theorem tokenize_spec :
  (forall text : option jsstring,
      tokenize text
      = filter longEnough (split isSeparator (normalizeSearchText text)))
  /\ (forall c : unit16,
        isSeparator c = true <->
        isWhiteSpace c = true \/ c = 0x2D \/ c = 0x2F \/ c = 0x2C)
  /\ (forall (text : option jsstring) (token : jsstring),
        In token (tokenize text) ->
        (2 <= length token)%nat
        /\ Forall (fun c => isSeparator c = false) token)
  /\ (forall word : jsstring,
        Forall (fun c => isSeparator c = false) word ->
        filter longEnough (split isSeparator word)
        = if (2 <=? length word)%nat then [word] else [])
  /\ (forall (left right : jsstring) (sep : unit16),
        isSeparator sep = true ->
        filter longEnough (split isSeparator (left ++ sep :: right))
        = filter longEnough (split isSeparator left)
          ++ filter longEnough (split isSeparator right))
  /\ (RuntimeKeeps (js "white/led-light, panel") ->
      tokenize (Some (js "white/led-light, panel"))
      = map js ["white"; "led"; "light"; "panel"]%string)
  /\ (RuntimeKeeps (js "a b") -> tokenize (Some (js "a b")) = []).
Proof.
  repeat apply conj.
  - reflexivity.
  - intros c. unfold isSeparator.
    rewrite !orb_true_iff, !Z.eqb_eq. tauto.
  - intros text token Hin. unfold tokenize in Hin. cbv zeta in Hin.
    apply filter_In in Hin as [Hin Hlen]. split.
    + now apply Nat.leb_le in Hlen.
    + pose proof (splitRuns_pieces isSeparator
                    (normalizeSearchText text) [] false (Forall_nil _)) as H.
      rewrite Forall_forall in H. apply H. exact Hin.
  - intros word Hw. unfold split. rewrite splitRuns_word by exact Hw.
    reflexivity.
  - intros left right sep Hsep. unfold split.
    rewrite (splitRuns_cut isSeparator sep right Hsep left [] false)
      by discriminate.
    now rewrite splitRuns_inRun.
  - intros [Hlow Hnfd]. unfold tokenize. cbv zeta.
    rewrite normalizeSearchText_nonempty by (vm_compute; discriminate).
    unfold normalizePipeline. cbv zeta. rewrite Hlow.
    replace (trim (js "white/led-light, panel"))
      with (js "white/led-light, panel") by reflexivity.
    rewrite Hnfd. reflexivity.
  - intros [Hlow Hnfd]. unfold tokenize. cbv zeta.
    rewrite normalizeSearchText_nonempty by (vm_compute; discriminate).
    unfold normalizePipeline. cbv zeta. rewrite Hlow.
    replace (trim (js "a b")) with (js "a b") by reflexivity.
    rewrite Hnfd. reflexivity.
Qed.
End Tokenize.

(* ================================================================== *)
(** ** searchProduct                                                   *)
(* ================================================================== *)

Lemma trimStart_head (s : jsstring) :
  match trimStart s with
  | [] => True
  | c :: _ => isWhiteSpace c = false
  end.
Proof.
  induction s as [|c s IH]; simpl; [exact I|].
  destruct (isWhiteSpace c) eqn:E; [exact IH | exact E].
Qed.

Lemma trimStart_nil (s : jsstring) : trimStart s = [] <-> WhiteSpaceOnly s.
Proof.
  unfold WhiteSpaceOnly. induction s as [|c s IH]; simpl.
  - split; [constructor | reflexivity].
  - destruct (isWhiteSpace c) eqn:E.
    + rewrite IH. split; [constructor; assumption | now inversion 1].
    + split; [discriminate | inversion 1; congruence].
Qed.

Lemma trim_nil (s : jsstring) : trim s = [] <-> WhiteSpaceOnly s.
Proof.
  unfold trim, trimEnd. split.
  - intros H. apply (f_equal (@rev unit16)) in H.
    rewrite rev_involutive in H. simpl in H.
    apply trimStart_nil in H. unfold WhiteSpaceOnly in H.
    apply Forall_rev in H. rewrite rev_involutive in H.
    apply trimStart_nil. pose proof (trimStart_head s) as Hh.
    destruct (trimStart s) as [|c r]; [reflexivity|].
    inversion H; congruence.
  - intros H. apply trimStart_nil in H. rewrite H. reflexivity.
Qed.

Lemma isBlank_spec (s : jsstring) : isBlank s = true <-> WhiteSpaceOnly s.
Proof.
  unfold isBlank. rewrite <- trim_nil.
  destruct (trim s); simpl; split; congruence.
Qed.

Lemma if_true_or (b c : bool) :
  (if b then true else c) = true <-> b = true \/ c = true.
Proof. destruct b; intuition discriminate. Qed.

Section SearchProduct.
Context {R : Runtime}.

Lemma matchesSearch_falsy_target (searchTerm targetText : option jsstring) :
  falsy targetText = true -> matchesSearch searchTerm targetText = false.
Proof.
  intros H. unfold matchesSearch. rewrite H, orb_true_r. reflexivity.
Qed.

Lemma matchesSearch_falsy_term (searchTerm targetText : option jsstring) :
  falsy searchTerm = true -> matchesSearch searchTerm targetText = false.
Proof. intros H. unfold matchesSearch. rewrite H. reflexivity. Qed.

Lemma matchesSearch_self (s : option jsstring) :
  (2 <= length (normalizeSearchText s))%nat -> matchesSearch s s = true.
Proof.
  intros Hlen. unfold matchesSearch.
  destruct (falsy s) eqn:Ef.
  - rewrite (normalizeSearchText_falsy s Ef) in Hlen. simpl in Hlen. lia.
  - cbn [orb]. cbv zeta. apply Nat.ltb_ge in Hlen. rewrite Hlen.
    now rewrite includes_refl.
Qed.

(** The guard [x && matchesSearch(searchTerm, x)] of an optional string
    adds nothing: [matchesSearch] rejects an absent string itself. *)
Lemma optional_guard (searchTerm x : option jsstring) :
  negb (falsy x) && matchesSearch searchTerm x = true <->
  exists text, x = Some text /\ matchesSearch searchTerm (Some text) = true.
Proof.
  destruct x as [text|].
  - destruct (falsy (Some text)) eqn:E; cbn [negb andb].
    + split; [discriminate|]. intros [t [Ht Hm]]. injection Ht as <-.
      rewrite matchesSearch_falsy_target in Hm by exact E. discriminate.
    + split; [eauto|]. intros [t [Ht Hm]]. injection Ht as <-. exact Hm.
  - cbn. split; [discriminate | intros [t [Ht _]]; discriminate].
Qed.

Lemma optional_array_guard (searchTerm : option jsstring)
  (x : option (list (option jsstring))) :
  match x with
  | Some _ => matchesSearchArray searchTerm x
  | None => false
  end = true <->
  exists items, x = Some items
                /\ matchesSearchArray searchTerm (Some items) = true.
Proof.
  destruct x as [items|].
  - split; [eauto|]. intros [l [Hl Hm]]. injection Hl as <-. exact Hm.
  - split; [discriminate | intros [l [Hl _]]; discriminate].
Qed.

(** [items.some(item => matchesSearch(searchTerm, item))] *)
Lemma matchesSearchArray_spec (searchTerm : option jsstring)
  (items : list (option jsstring)) :
  matchesSearchArray searchTerm (Some items) = true <->
  exists item, In item items /\ matchesSearch searchTerm item = true.
Proof.
  unfold matchesSearchArray. destruct (falsy searchTerm) eqn:Ef.
  - cbn [orb]. split; [discriminate|]. intros [item [_ H]].
    rewrite matchesSearch_falsy_term in H by exact Ef. discriminate.
  - cbn [orb]. destruct items as [|i items].
    + cbn. split; [discriminate | intros [item [[] _]]].
    + cbn [length Nat.eqb]. rewrite existsb_exists. reflexivity.
Qed.

Lemma noConstraint_spec (searchTerm : option jsstring) :
  noConstraint searchTerm = true <->
  searchTerm = undefined
  \/ exists s, searchTerm = Some s /\ WhiteSpaceOnly s.
Proof.
  unfold noConstraint. destruct searchTerm as [s|].
  - rewrite orb_true_iff, isBlank_spec. split.
    + intros [H | H]; right; exists s; split; auto.
      destruct s; [constructor | discriminate].
    + intros [H | [s' [H Hw]]]; [discriminate|].
      injection H as <-. auto.
  - cbn. split; auto.
Qed.

(** C5. The boundary behaviour of [searchProduct], in the order the
    function checks it: an undefined, empty or white-space-only search
    term gives [true] for every product, an undefined one included;
    otherwise an undefined product gives [false]; otherwise a search
    term whose normalized form has fewer than two code units gives
    [false]. *)
Theorem searchProduct_boundaries (product : option SearchableProduct) :
  (forall searchTerm : option jsstring,
      searchTerm = undefined
      \/ (exists s, searchTerm = Some s /\ WhiteSpaceOnly s) ->
      searchProduct product searchTerm = true)
  /\ (forall s : jsstring,
        ~ WhiteSpaceOnly s ->
        searchProduct undefined (Some s) = false)
  /\ (forall s : jsstring,
        ~ WhiteSpaceOnly s ->
        (length (normalizeSearchText (Some s)) < 2)%nat ->
        searchProduct product (Some s) = false).
Proof.
  repeat apply conj.
  - intros searchTerm H. apply noConstraint_spec in H.
    unfold searchProduct. now rewrite H.
  - intros s Hs. unfold searchProduct.
    destruct (noConstraint (Some s)) eqn:E; [|reflexivity].
    apply noConstraint_spec in E as [E | [s' [E Hw]]]; [discriminate|].
    injection E as <-. contradiction.
  - intros s Hs Hlen. unfold searchProduct.
    destruct (noConstraint (Some s)) eqn:E.
    { apply noConstraint_spec in E as [E | [s' [E Hw]]]; [discriminate|].
      injection E as <-. contradiction. }
    destruct product as [p|]; [|reflexivity].
    cbv zeta. apply Nat.ltb_lt in Hlen. now rewrite Hlen.
Qed.

Section LawfulRuntime.
(** Two facts about the runtime: white space has no case, and the
    empty string is its own decomposition. *)
Hypothesis toLowerCase_whitespace :
  forall s, WhiteSpaceOnly s -> WhiteSpaceOnly (toLowerCase s).
Hypothesis normalizeNFD_empty : normalizeNFD [] = [].

Lemma noConstraint_normalized (searchTerm : option jsstring) :
  noConstraint searchTerm = true -> normalizeSearchText searchTerm = [].
Proof.
  intros H. apply noConstraint_spec in H as [-> | [s [-> Hw]]];
    [reflexivity|].
  destruct s as [|c r]; [reflexivity|].
  cbn [normalizeSearchText]. unfold normalizePipeline. cbv zeta.
  apply toLowerCase_whitespace, trim_nil in Hw. rewrite Hw.
  rewrite normalizeNFD_empty. reflexivity.
Qed.

(** C6. For a defined product and a search term whose normalized
    form has two code units or more, [searchProduct] returns [true] if
    and only if the term matches one of: the name, the English name,
    the description, the English description when present, a colour,
    a material, a feature, a tag when tags are present, the category
    when present, the subcategory when present; it returns [false]
    when none matches.  A product whose colours are white and black is
    found by "white", whatever its other fields. *)
Theorem searchProduct_matches_some_field :
  (forall (p : SearchableProduct) (searchTerm : option jsstring),
      (2 <= length (normalizeSearchText searchTerm))%nat ->
      searchProduct (Some p) searchTerm = true <->
      matchesSearch searchTerm (name p) = true
      \/ matchesSearch searchTerm (nameEn p) = true
      \/ matchesSearch searchTerm (description p) = true
      \/ (exists text, descriptionEn p = Some text
            /\ matchesSearch searchTerm (Some text) = true)
      \/ matchesSearchArray searchTerm (Some (colors p)) = true
      \/ matchesSearchArray searchTerm (Some (materials p)) = true
      \/ matchesSearchArray searchTerm (Some (features p)) = true
      \/ (exists items, tags p = Some items
            /\ matchesSearchArray searchTerm (Some items) = true)
      \/ (exists text, category p = Some text
            /\ matchesSearch searchTerm (Some text) = true)
      \/ (exists text, subcategory p = Some text
            /\ matchesSearch searchTerm (Some text) = true))
  /\ (forall p : SearchableProduct,
        colors p = strings ["white"; "black"]%string ->
        RuntimeKeeps (js "white") ->
        searchProduct (Some p) (Some (js "white")) = true).
Proof.
  assert (Hiff : forall (p : SearchableProduct) searchTerm,
             (2 <= length (normalizeSearchText searchTerm))%nat ->
             searchProduct (Some p) searchTerm = true <->
             matchesSearch searchTerm (name p) = true
             \/ matchesSearch searchTerm (nameEn p) = true
             \/ matchesSearch searchTerm (description p) = true
             \/ (exists text, descriptionEn p = Some text
                   /\ matchesSearch searchTerm (Some text) = true)
             \/ matchesSearchArray searchTerm (Some (colors p)) = true
             \/ matchesSearchArray searchTerm (Some (materials p)) = true
             \/ matchesSearchArray searchTerm (Some (features p)) = true
             \/ (exists items, tags p = Some items
                   /\ matchesSearchArray searchTerm (Some items) = true)
             \/ (exists text, category p = Some text
                   /\ matchesSearch searchTerm (Some text) = true)
             \/ (exists text, subcategory p = Some text
                   /\ matchesSearch searchTerm (Some text) = true)).
  { intros p searchTerm Hlen. unfold searchProduct.
    destruct (noConstraint searchTerm) eqn:E.
    { apply noConstraint_normalized in E. rewrite E in Hlen.
      simpl in Hlen. lia. }
    cbv zeta. apply Nat.ltb_ge in Hlen. rewrite Hlen.
    rewrite !if_true_or, !optional_guard, optional_array_guard.
    intuition discriminate. }
  split; [exact Hiff|].
  intros p Hcolors [Hlow Hnfd].
  assert (Hn : normalizeSearchText (Some (js "white")) = js "white").
  { rewrite normalizeSearchText_nonempty by (vm_compute; discriminate).
    unfold normalizePipeline. cbv zeta. rewrite Hlow.
    replace (trim (js "white")) with (js "white") by reflexivity.
    rewrite Hnfd. reflexivity. }
  apply Hiff; [rewrite Hn; vm_compute; lia|].
  do 4 right. left. rewrite Hcolors.
  apply matchesSearchArray_spec. exists (Some (js "white")).
  split; [left; reflexivity|].
  apply matchesSearch_self. rewrite Hn. vm_compute. lia.
Qed.
End LawfulRuntime.
End SearchProduct.

(* ================================================================== *)
(** ** debugSearch                                                     *)
(* ================================================================== *)

Section DebugSearch.
Context {R : Runtime}.

Lemma pushIfMatch_app (searchTerm x : option jsstring) (entry : jsstring)
  (matches : list jsstring) :
  pushIfMatch searchTerm x entry matches
  = matches ++ entryIfMatch searchTerm x entry.
Proof.
  unfold pushIfMatch, entryIfMatch.
  destruct (matchesSearch searchTerm x); [reflexivity|].
  now rewrite app_nil_r.
Qed.

Lemma pushEachMatch_app (searchTerm : option jsstring) (label : jsstring)
  (items : list (option jsstring)) (matches : list jsstring) :
  pushEachMatch searchTerm label items matches
  = matches
    ++ flat_map (fun item =>
                   entryIfMatch searchTerm item (label ++ interpolate item))
                items.
Proof.
  unfold pushEachMatch. revert matches.
  induction items as [|i items IH]; intros matches; cbn [fold_left flat_map].
  - now rewrite app_nil_r.
  - rewrite IH, pushIfMatch_app, <- app_assoc. reflexivity.
Qed.

(** [debugSearch] goes through the name, the English name, the
    description, the colours, the materials and the features, in this
    order and without stopping at a match; it reads no other field. *)
Lemma debugSearch_entries (p : SearchableProduct)
  (searchTerm : option jsstring) :
  debugSearch (Some p) searchTerm
  = Normal
      (entryIfMatch searchTerm (name p)
         (js "Name: " ++ interpolate (name p))
       ++ entryIfMatch searchTerm (nameEn p)
            (js "Name EN: " ++ interpolate (nameEn p))
       ++ entryIfMatch searchTerm (description p) (js "Description")
       ++ flat_map (fun item => entryIfMatch searchTerm item
                                  (js "Color: " ++ interpolate item))
                   (colors p)
       ++ flat_map (fun item => entryIfMatch searchTerm item
                                  (js "Material: " ++ interpolate item))
                   (materials p)
       ++ flat_map (fun item => entryIfMatch searchTerm item
                                  (js "Feature: " ++ interpolate item))
                   (features p)).
Proof.
  unfold debugSearch. cbv zeta.
  rewrite !pushEachMatch_app, !pushIfMatch_app, <- !app_assoc.
  reflexivity.
Qed.

Lemma debugSearch_undefined_product (searchTerm : option jsstring) :
  debugSearch undefined searchTerm = Throw TypeError.
Proof. reflexivity. Qed.

(** What the functions return on empty and undefined arguments: an
    empty or undefined text normalizes to the empty string and has no
    token; an empty or undefined search term or target matches nothing;
    undefined or empty items match nothing; on an undefined product
    [searchProduct] returns its first test; and [debugSearch] completes
    normally for every product and every search term. *)
Theorem public_functions_total :
  (forall text, EmptyOrUndefined text -> normalizeSearchText text = [])
  /\ (forall text, EmptyOrUndefined text -> tokenize text = [])
  /\ (forall text other,
        EmptyOrUndefined text ->
        matchesSearch text other = false /\ matchesSearch other text = false)
  /\ (forall searchTerm items,
        EmptyOrUndefined searchTerm \/ items = undefined \/ items = Some [] ->
        matchesSearchArray searchTerm items = false)
  /\ (forall searchTerm,
        searchProduct undefined searchTerm = noConstraint searchTerm)
  /\ (forall (p : SearchableProduct) searchTerm,
        exists matches, debugSearch (Some p) searchTerm = Normal matches).
Proof.
  repeat apply conj.
  - intros text H. apply falsy_spec in H.
    now apply normalizeSearchText_falsy.
  - intros text H. apply falsy_spec in H. unfold tokenize.
    now rewrite normalizeSearchText_falsy.
  - intros text other H. apply falsy_spec in H. split.
    + now apply matchesSearch_falsy_term.
    + now apply matchesSearch_falsy_target.
  - intros searchTerm items [H | [-> | ->]].
    + apply falsy_spec in H. unfold matchesSearchArray.
      destruct items; [now rewrite H | reflexivity].
    + reflexivity.
    + unfold matchesSearchArray. now rewrite orb_true_r.
  - intros searchTerm. unfold searchProduct.
    now destruct (noConstraint searchTerm).
  - intros p searchTerm. rewrite debugSearch_entries. eauto.
Qed.
End DebugSearch.

(* ================================================================== *)
(** ** The runtime for Latin and Greek text                            *)
(* ================================================================== *)

Lemma isWhiteSpace_units (c : unit16) :
  isWhiteSpace c = true -> In c whiteSpaceUnits.
Proof.
  unfold isWhiteSpace, inRange, whiteSpaceUnits.
  rewrite !orb_true_iff, !andb_true_iff, !Z.leb_le, !Z.eqb_eq.
  cbn [In]. lia.
Qed.

(** White space has no case. *)
Lemma lowerUnit_whitespace (c : unit16) :
  isWhiteSpace c = true -> (c =? 0x03A3) = false /\ Fragment.lowerUnit c = c.
Proof.
  intros H. apply isWhiteSpace_units in H. revert c H. apply Forall_forall.
  unfold whiteSpaceUnits. repeat constructor.
Qed.

Lemma lowerFrom_whitespace (s before : jsstring) :
  WhiteSpaceOnly s -> Fragment.lowerFrom before s = s.
Proof.
  intros H. revert before.
  induction H as [|c s Hc _ IH]; intros before; cbn [Fragment.lowerFrom];
    [reflexivity|].
  destruct (lowerUnit_whitespace c Hc) as [-> ->]. cbn [andb].
  now rewrite IH.
Qed.

Lemma fragment_toLowerCase_whitespace (s : jsstring) :
  WhiteSpaceOnly s -> WhiteSpaceOnly (toLowerCase (Runtime := fragmentRuntime) s).
Proof.
  intros H. cbn [toLowerCase fragmentRuntime]. unfold Fragment.toLowerCase.
  now rewrite lowerFrom_whitespace.
Qed.

Lemma fragment_normalizeNFD_empty :
  normalizeNFD (Runtime := fragmentRuntime) [] = [].
Proof. reflexivity. Qed.

(* ================================================================== *)
(** ** Worked examples                                                 *)
(* ================================================================== *)

(** C1. Idempotence fails on the code: [trim] runs before the slashes
    become spaces, so "a/" normalizes to the untrimmed "a ", and "a "
    normalizes to "a". *)
Lemma normalizeSearchText_not_idempotent :
  normalizeSearchText (Some (js "a/")) = js "a "
  /\ normalizeSearchText (Some (normalizeSearchText (Some (js "a/")))) = js "a"
  /\ normalizeSearchText (Some (normalizeSearchText (Some (js "a/"))))
     <> normalizeSearchText (Some (js "a/")).
Proof.
  repeat apply conj; [vm_compute; reflexivity ..|].
  vm_compute. discriminate.
Qed.

Lemma normalizeSearchText_idempotent_on_trimmed_example :
  normalizeSearchText (Some (normalizeSearchText (Some (js "Νιπτήρας / Λευκό"))))
  = normalizeSearchText (Some (js "Νιπτήρας / Λευκό")).
Proof.
  apply (normalizeSearchText_idempotent_on_trimmed
           (Some (js "Νιπτήρας / Λευκό"))); vm_compute; reflexivity.
Defined.

(** C2. [debugSearch] misses four of the fields [searchProduct] reads:
    the washbasin is found through its English description ("wall"), its
    tags ("bathroom"), its category ("furniture") and its subcategory
    ("basins"), and [debugSearch] reports no match for any of them. *)
Theorem debugSearch_misses_fields :
  Forall (fun searchTerm =>
            searchProduct (Some washbasin) (Some (js searchTerm)) = true
            /\ debugSearch (Some washbasin) (Some (js searchTerm)) = Normal [])
         ["wall"; "bathroom"; "furniture"; "basins"]%string.
Proof. repeat constructor; vm_compute; reflexivity. Qed.

Lemma matchesSearch_characterised_example :
  matchesSearch (Some (js "White LED")) (Some (js "LED White Panel")) = true
  /\ matchesSearch (Some (js "White LED")) (Some (js "White Panel")) = false.
Proof.
  split.
  - apply (matchesSearch_characterised (js "White LED") (js "LED White Panel"));
      [vm_compute; discriminate | vm_compute; discriminate | vm_compute; lia |].
    right. repeat apply conj; [vm_compute; discriminate ..|].
    intros searchToken Hin. vm_compute in Hin.
    destruct Hin as [<- | [<- | []]].
    + exists (js "white"). split; [vm_compute; auto | left; reflexivity].
    + exists (js "led"). split; [vm_compute; auto | left; reflexivity].
  - vm_compute. reflexivity.
Defined.

Lemma matchesSearch_fails_closed_example :
  matchesSearch (Some (js "")) (Some (js "anything")) = false
  /\ matchesSearch (Some (js "a")) (Some (js "anything")) = false
  /\ matchesSearch (Some (js "anything")) undefined = false.
Proof.
  repeat apply conj.
  - apply matchesSearch_fails_closed. left. right. vm_compute. reflexivity.
  - apply matchesSearch_fails_closed. right. right. vm_compute. lia.
  - apply matchesSearch_fails_closed. right. left. left. reflexivity.
Defined.

Lemma matchesSearch_reflexive_example :
  matchesSearch (Some (js "Νιπτήρας")) (Some (js "Νιπτήρας")) = true.
Proof.
  apply (matchesSearch_reflexive (Some (js "Νιπτήρας"))). vm_compute. lia.
Defined.


Lemma tokenize_spec_example :
  tokenize (Some (js "white/led-light, panel"))
  = map js ["white"; "led"; "light"; "panel"]%string
  /\ tokenize (Some (js "a b")) = []
  /\ (2 <= length (js "led"))%nat.
Proof.
  destruct (@tokenize_spec fragmentRuntime)
    as [_ [_ [Htoken [_ [_ [Hwhite Hab]]]]]].
  repeat apply conj.
  - apply Hwhite. split; vm_compute; reflexivity.
  - apply Hab. split; vm_compute; reflexivity.
  - apply (Htoken (Some (js "white/led-light, panel")) (js "led")).
    vm_compute. auto.
Defined.

Lemma searchProduct_boundaries_example :
  searchProduct (Some washbasin) (Some (js "   ")) = true
  /\ searchProduct undefined (Some (js "chair")) = false
  /\ searchProduct (Some washbasin) (Some (js "x")) = false.
Proof.
  repeat apply conj.
  - apply (proj1 (searchProduct_boundaries (Some washbasin))).
    right. exists (js "   "). split; [reflexivity | vm_compute; repeat constructor].
  - apply (proj1 (proj2 (searchProduct_boundaries undefined))).
    intros H. apply isBlank_spec in H. vm_compute in H. discriminate.
  - apply (proj2 (proj2 (searchProduct_boundaries (Some washbasin)))).
    + intros H. apply isBlank_spec in H. vm_compute in H. discriminate.
    + vm_compute. lia.
Defined.

Lemma searchProduct_matches_some_field_example :
  searchProduct (Some washbasin) (Some (js "white")) = true
  /\ searchProduct (Some washbasin) (Some (js "bathroom")) = true.
Proof.
  pose proof (@searchProduct_matches_some_field fragmentRuntime
                fragment_toLowerCase_whitespace fragment_normalizeNFD_empty)
    as [Hiff Hwhite].
  split.
  - apply Hwhite; [vm_compute; reflexivity | split; vm_compute; reflexivity].
  - apply Hiff; [vm_compute; lia|].
    do 7 right. left. exists (strings ["bathroom"]%string).
    split; vm_compute; reflexivity.
Defined.

Lemma public_functions_total_example :
  tokenize (Some (js "")) = []
  /\ matchesSearchArray (Some (js "white")) undefined = false
  /\ exists matches,
       debugSearch (Some washbasin) undefined = Normal matches.
Proof.
  destruct (@public_functions_total fragmentRuntime)
    as [_ [Htok [_ [Harr [_ Hdebug]]]]].
  repeat apply conj.
  - apply Htok. right. vm_compute. reflexivity.
  - apply Harr. right. left. reflexivity.
  - apply Hdebug.
Defined.

(* ================================================================== *)
(** ** Further properties of the matcher                               *)
(* ================================================================== *)

Section MatcherProperties.
Context {R : Runtime}.

(** The two guards on empty and undefined arguments are subsumed by the
    tests on the normalized forms. *)
Lemma matchesSearch_unguarded (a b : option jsstring) :
  matchesSearch a b =
  if (length (normalizeSearchText a) <? 2)%nat then false
  else if includes (normalizeSearchText b) (normalizeSearchText a) then true
  else if (length (tokenize a) =? 0)%nat then false
  else if (length (tokenize b) =? 0)%nat then false
  else allTokensMatched (tokenize a) (tokenize b).
Proof.
  unfold matchesSearch. cbv zeta. destruct (falsy a) eqn:Fa.
  - rewrite (normalizeSearchText_falsy a Fa). reflexivity.
  - destruct (falsy b) eqn:Fb; cbn [orb]; [|reflexivity].
    destruct (length (normalizeSearchText a) <? 2)%nat eqn:Hlen;
      [reflexivity|].
    assert (Tb : tokenize b = []).
    { unfold tokenize. rewrite (normalizeSearchText_falsy b Fb). reflexivity. }
    rewrite Tb, (normalizeSearchText_falsy b Fb).
    destruct (normalizeSearchText a) as [|x l]; [discriminate Hlen|].
    cbn [includes startsWith orb length Nat.eqb].
    now destruct (length (tokenize a) =? 0)%nat.
Qed.

Lemma matchesSearch_true_length (a b : option jsstring) :
  matchesSearch a b = true -> (2 <= length (normalizeSearchText a))%nat.
Proof.
  rewrite matchesSearch_unguarded.
  destruct (length (normalizeSearchText a) <? 2)%nat eqn:E; [discriminate|].
  intros _. now apply Nat.ltb_ge in E.
Qed.

(** X2. [matchesSearch] sees its arguments only through their normalized
    forms: two search terms with the same normalized form match the same
    targets, and two targets with the same normalized form are matched
    by the same terms. *)
Theorem matchesSearch_normal_forms (a a' b b' : option jsstring) :
  normalizeSearchText a = normalizeSearchText a' ->
  normalizeSearchText b = normalizeSearchText b' ->
  matchesSearch a b = matchesSearch a' b'.
Proof.
  intros Ha Hb. rewrite !matchesSearch_unguarded. unfold tokenize.
  cbv zeta. rewrite Ha, Hb. reflexivity.
Qed.

(** X3. The token strategy is monotone: dropping search tokens or adding
    target tokens, in any order, keeps a match. *)
Theorem allTokensMatched_monotone
  (searchTokens searchTokens' targetTokens targetTokens' : list jsstring) :
  incl searchTokens' searchTokens ->
  incl targetTokens targetTokens' ->
  allTokensMatched searchTokens targetTokens = true ->
  allTokensMatched searchTokens' targetTokens' = true.
Proof.
  rewrite !allTokensMatched_spec. intros Hs Ht H token Hin.
  destruct (H token (Hs token Hin)) as [t [Hint Hm]].
  exists t. split; [apply Ht; exact Hint | exact Hm].
Qed.

(** X4. What a search token needs depends on its length only: a token
    of two code units must equal a target token, one of three must start
    a target token, one of four or more must occur in a target token. *)
Theorem tokenMatched_by_length (searchToken : jsstring)
  (targetTokens : list jsstring) :
  tokenMatched searchToken targetTokens = true <->
  exists targetToken,
    In targetToken targetTokens
    /\ if (length searchToken <? 3)%nat then targetToken = searchToken
       else if (length searchToken <? 4)%nat
            then IsPrefix searchToken targetToken
            else IsSubstring searchToken targetToken.
Proof.
  rewrite tokenMatched_spec. unfold TokenMatches.
  assert (Heq : forall t, t = searchToken -> IsPrefix searchToken t).
  { intros t ->. exists []. now rewrite app_nil_r. }
  assert (Hpre : forall t, IsPrefix searchToken t -> IsSubstring searchToken t).
  { intros t [post ->]. exists [], post. reflexivity. }
  split; intros [t [Hin H]]; exists t; (split; [exact Hin|]).
  - destruct (length searchToken <? 3)%nat eqn:E3.
    + apply Nat.ltb_lt in E3.
      destruct H as [H | [[_ H] | [_ H]]]; [exact H | lia | lia].
    + destruct (length searchToken <? 4)%nat eqn:E4.
      * apply Nat.ltb_lt in E4.
        destruct H as [H | [[H _] | [_ H]]]; [auto | exact H | lia].
      * destruct H as [H | [[H _] | [H _]]]; auto.
  - destruct (length searchToken <? 3)%nat eqn:E3; [left; exact H|].
    apply Nat.ltb_ge in E3.
    destruct (length searchToken <? 4)%nat eqn:E4.
    + right. left. split; [exact H | exact E3].
    + apply Nat.ltb_ge in E4. right. right. split; [exact H | exact E4].
Qed.

(** X1. [matchesSearchArray] is the disjunction of [matchesSearch] over
    the items: it returns [true] exactly when the items are defined and
    one of them matches; its own guards on the search term and on the
    empty array change nothing. *)
Theorem matchesSearchArray_some (searchTerm : option jsstring)
  (items : option (list (option jsstring))) :
  matchesSearchArray searchTerm items = true <->
  exists l item,
    items = Some l /\ In item l /\ matchesSearch searchTerm item = true.
Proof.
  destruct items as [l|].
  - rewrite matchesSearchArray_spec. split.
    + intros [item [Hin Hm]]. exists l, item. auto.
    + intros [l' [item [Hl [Hin Hm]]]]. injection Hl as <-. eauto.
  - split; [discriminate | intros [l [item [Hl _]]]; discriminate].
Qed.
End MatcherProperties.

(* ================================================================== *)
(** ** Further properties of the normalizer and the tokenizer          *)
(* ================================================================== *)

Section Runs.
Variable cls : unit16 -> bool.
Variable to : unit16.

(** After a run has been replaced, the text goes on with a code unit
    outside the class. *)
Lemma replaceRuns_after_run (s : jsstring) :
  match replaceRuns cls to true s with
  | [] => True
  | c :: _ => cls c = false
  end.
Proof.
  induction s as [|c s IH]; cbn [replaceRuns]; [exact I|].
  destruct (cls c) eqn:E; [exact IH | exact E].
Qed.

(** No two code units of the class are adjacent in the result. *)
Lemma replaceRuns_no_adjacent (s : jsstring) :
  forall (inRun : bool) (pre post : jsstring) (x y : unit16),
    replaceRuns cls to inRun s = pre ++ x :: y :: post ->
    cls x = true -> cls y = false.
Proof.
  induction s as [|c s IH]; intros inRun pre post x y Heq Hx;
    cbn [replaceRuns] in Heq.
  - destruct pre; discriminate.
  - destruct (cls c) eqn:Ec.
    + destruct inRun; [eapply IH; eassumption|].
      destruct pre as [|p pre]; cbn [app] in Heq.
      * injection Heq as _ Heq.
        pose proof (replaceRuns_after_run s) as Hh.
        rewrite Heq in Hh. exact Hh.
      * injection Heq as _ Heq. eapply IH; eassumption.
    + destruct pre as [|p pre]; cbn [app] in Heq.
      * injection Heq as -> _. congruence.
      * injection Heq as _ Heq. eapply IH; eassumption.
Qed.

(** A code unit of the class in the result is the replacement. *)
Lemma replaceRuns_only_to (s : jsstring) (inRun : bool) :
  Forall (fun c => cls c = true -> c = to) (replaceRuns cls to inRun s).
Proof.
  revert inRun. induction s as [|c s IH]; intros inRun; cbn [replaceRuns];
    [constructor|].
  destruct (cls c) eqn:Ec.
  - destruct inRun; [apply IH|]. constructor; [reflexivity | apply IH].
  - constructor; [congruence | apply IH].
Qed.

(** A piece of a split is a piece of the string: the first one goes on
    from [cur], the others lie inside [s]. *)
Lemma splitRuns_substring (s : jsstring) :
  forall (inRun : bool) (cur piece : jsstring),
    (inRun = true -> cur = []) ->
    In piece (splitRuns cls inRun cur s) ->
    (exists s1 s2, s = s1 ++ s2 /\ piece = cur ++ s1)
    \/ IsSubstring piece s.
Proof.
  assert (Hshift : forall (c : unit16) (r piece : jsstring),
             (exists s1 s2, r = s1 ++ s2 /\ piece = [] ++ s1)
             \/ IsSubstring piece r ->
             IsSubstring piece (c :: r)).
  { intros c r piece [[s1 [s2 [-> ->]]] | [a [b ->]]].
    - exists [c], s2. reflexivity.
    - exists (c :: a), b. reflexivity. }
  induction s as [|c s IH]; intros inRun cur piece Hcur Hin;
    cbn [splitRuns] in Hin.
  - destruct Hin as [<- | []]. left. exists [], [].
    split; [reflexivity | now rewrite app_nil_r].
  - destruct (cls c).
    + destruct inRun.
      * rewrite (Hcur eq_refl) in Hin. right. apply Hshift.
        apply (IH true); auto.
      * destruct Hin as [<- | Hin].
        -- left. exists [], (c :: s).
           split; [reflexivity | now rewrite app_nil_r].
        -- right. apply Hshift. apply (IH true); auto.
    + destruct (IH false (cur ++ [c]) piece) as [[s1 [s2 [-> ->]]] | H];
        [discriminate | exact Hin | |].
      * left. exists (c :: s1), s2. now rewrite <- app_assoc.
      * right. destruct H as [a [b ->]]. exists (c :: a), b. reflexivity.
Qed.
End Runs.

Section NormalizerProperties.
Context {R : Runtime}.

(** X5. Every token of [tokenize] is a contiguous piece of the
    normalized text. *)
Theorem tokenize_substrings (text : option jsstring) (token : jsstring) :
  In token (tokenize text) ->
  IsSubstring token (normalizeSearchText text).
Proof.
  unfold tokenize. cbv zeta. intros Hin.
  apply filter_In in Hin as [Hin _]. unfold split in Hin.
  apply splitRuns_substring in Hin; [|discriminate].
  destruct Hin as [[s1 [s2 [Hs ->]]] | H]; [|exact H].
  exists [], s2. exact Hs.
Qed.

(** X6. The normalized text holds no slash and no backslash, none of
    the ten letters of the table of variations, and no white space but
    single spaces: a white-space code unit of it is U+0020 and the next
    code unit is not white space. *)
Theorem normalizeSearchText_shape (text : option jsstring) :
  (forall c, In c (normalizeSearchText text) ->
     c <> 0x2F /\ c <> 0x5C
     /\ ~ In c (map fst greekVariations)
     /\ (isWhiteSpace c = true -> c = 0x20))
  /\ (forall pre post x y,
        normalizeSearchText text = pre ++ x :: y :: post ->
        isWhiteSpace x = true -> isWhiteSpace y = false).
Proof.
  split.
  - intros c Hin.
    destruct (normalizeSearchText_Normalized text) as [_ Hv Hs _].
    rewrite Forall_forall in Hv, Hs.
    specialize (Hv c Hin). specialize (Hs c Hin).
    unfold isSlash in Hs. apply orb_false_iff in Hs as [H1 H2].
    apply Z.eqb_neq in H1, H2.
    repeat apply conj; try assumption.
    + intros Hk. apply in_map_iff in Hk as [p [Hp Hk]].
      unfold isVariation in Hv.
      assert (Ht : existsb (fun q => fst q =? c) greekVariations = true).
      { apply existsb_exists. exists p. split; [exact Hk|].
        now apply Z.eqb_eq. }
      congruence.
    + destruct text as [[|k r]|]; cbn [normalizeSearchText] in Hin;
        try contradiction.
      unfold normalizePipeline in Hin. cbv zeta in Hin.
      pose proof (replaceRuns_only_to isWhiteSpace 0x20
                    (replaceAll isSlash 0x20
                       (replaceTable greekVariations
                          (removeAll isCombiningMark
                             (normalizeNFD (trim (toLowerCase (k :: r)))))))
                    false) as Hto.
      rewrite Forall_forall in Hto. exact (Hto c Hin).
  - intros pre post x y Heq Hx.
    destruct text as [[|k r]|]; cbn [normalizeSearchText] in Heq;
      try (destruct pre; discriminate).
    unfold normalizePipeline in Heq. cbv zeta in Heq.
    eapply replaceRuns_no_adjacent; eassumption.
Qed.

(** What the chain of replacements does to a code unit that is no
    accented vowel: only the final sigma changes. *)
Lemma applyTable_unaccented (c : unit16) :
  isAccentedVowel c = false ->
  applyTable greekVariations c = if 0x03C2 =? c then 0x03C3 else c.
Proof.
  unfold isAccentedVowel, applyTable, greekVariations.
  cbn [firstn fold_left existsb fst snd].
  repeat match goal with
         | |- context [?k =? c] =>
             lazymatch k with
             | 0x03C2 => fail
             | _ => destruct (Z.eqb_spec k c) as [<- | ?];
                    [cbn; discriminate |]
             end
         end.
  intros _.
  repeat match goal with
         | H : ?k <> c |- _ =>
             apply Z.eqb_neq in H; rewrite ?H; clear H
         end.
  destruct (Z.eqb_spec 0x03C2 c) as [<- | Hc]; [reflexivity|].
  reflexivity.
Qed.

(** X7. On a runtime whose canonical decomposition leaves no accented
    Greek vowel (each of the nine has a decomposition), the nine vowel
    replacements of [normalizeSearchText] never fire: the chain amounts
    to the replacement of the final sigma alone. *)
Theorem vowel_replacements_never_fire (text : jsstring) :
  (forall s c, In c (normalizeNFD s) -> isAccentedVowel c = false) ->
  normalizePipeline text
  = replaceRuns isWhiteSpace 0x20 false
      (replaceAll isSlash 0x20
         (replaceAll (Z.eqb 0x03C2) 0x03C3
            (removeAll isCombiningMark
               (normalizeNFD (trim (toLowerCase text)))))).
Proof.
  intros Hnfd. unfold normalizePipeline. cbv zeta. do 2 f_equal.
  rewrite replaceTable_map. unfold replaceAll. apply map_ext_in.
  intros c Hin. apply applyTable_unaccented.
  unfold removeAll in Hin. apply filter_In in Hin as [Hin _].
  exact (Hnfd _ _ Hin).
Qed.
End NormalizerProperties.

(* ================================================================== *)
(** ** Further properties of the product filter and the debug helper   *)
(* ================================================================== *)

Lemma Normal_inj {A : Type} (a b : A) : Normal a = Normal b -> a = b.
Proof. intros H. now injection H. Qed.

Lemma bool_eq_iff (b c : bool) : (b = true <-> c = true) -> b = c.
Proof. destruct b, c; intuition congruence. Qed.

Section ProductProperties.
Context {R : Runtime}.

Lemma matchesSearchArray_true_length (searchTerm : option jsstring)
  (items : list (option jsstring)) :
  matchesSearchArray searchTerm (Some items) = true ->
  (2 <= length (normalizeSearchText searchTerm))%nat.
Proof.
  intros H. apply matchesSearchArray_spec in H as [item [_ H]].
  eapply matchesSearch_true_length. exact H.
Qed.

Lemma SomeFieldMatches_length (p : SearchableProduct)
  (searchTerm : option jsstring) :
  SomeFieldMatches p searchTerm ->
  (2 <= length (normalizeSearchText searchTerm))%nat.
Proof.
  unfold SomeFieldMatches. intros H.
  repeat match type of H with
         | _ \/ _ => destruct H as [H | H]
         | exists _, _ => destruct H as [? [_ H]]
         end;
    first [ eapply matchesSearch_true_length; exact H
          | eapply matchesSearchArray_true_length; exact H ].
Qed.

(** [searchProduct] on a defined product, with no assumption on the
    runtime. *)
Lemma searchProduct_cases (p : SearchableProduct)
  (searchTerm : option jsstring) :
  searchProduct (Some p) searchTerm = true <->
  noConstraint searchTerm = true \/ SomeFieldMatches p searchTerm.
Proof.
  unfold searchProduct. destruct (noConstraint searchTerm) eqn:E.
  { split; auto. }
  cbv zeta.
  destruct (length (normalizeSearchText searchTerm) <? 2)%nat eqn:Hlen.
  - split; [discriminate|]. intros [H | H]; [discriminate|].
    apply SomeFieldMatches_length in H. apply Nat.ltb_lt in Hlen. lia.
  - unfold SomeFieldMatches.
    rewrite !if_true_or, !optional_guard, optional_array_guard.
    intuition discriminate.
Qed.

(** X8. With no assumption on the runtime, [searchProduct] on a
    defined product returns [true] exactly when the search term is
    undefined, empty or white space only, or one of the ten fields
    matches; no test on the length of the term is needed, a match
    implies it. *)
Theorem searchProduct_exact (p : SearchableProduct)
  (searchTerm : option jsstring) :
  searchProduct (Some p) searchTerm = true <->
  searchTerm = undefined
  \/ (exists s, searchTerm = Some s /\ WhiteSpaceOnly s)
  \/ SomeFieldMatches p searchTerm.
Proof.
  rewrite searchProduct_cases, noConstraint_spec. tauto.
Qed.

Lemma matchesSearchArray_SameItems (searchTerm : option jsstring)
  (l l' : list (option jsstring)) :
  SameItems l l' ->
  matchesSearchArray searchTerm (Some l) = true <->
  matchesSearchArray searchTerm (Some l') = true.
Proof.
  intros H. rewrite !matchesSearchArray_spec.
  split; intros [item [Hin Hm]]; exists item; split; auto; now apply H.
Qed.

(** X9. [searchProduct] does not depend on the order or the
    repetitions of the colours, materials, features and tags. *)
Theorem searchProduct_order_irrelevant (p p' : SearchableProduct)
  (searchTerm : option jsstring) :
  SameUpToOrder p p' ->
  searchProduct (Some p) searchTerm = searchProduct (Some p') searchTerm.
Proof.
  intros (Hn & Hne & Hd & Hde & Hc & Hm & Hf & Ht & Hcat & Hsub).
  apply bool_eq_iff. rewrite !searchProduct_cases.
  unfold SomeFieldMatches. rewrite Hn, Hne, Hd, Hde, Hcat, Hsub.
  rewrite (matchesSearchArray_SameItems searchTerm _ _ Hc).
  rewrite (matchesSearchArray_SameItems searchTerm _ _ Hm).
  rewrite (matchesSearchArray_SameItems searchTerm _ _ Hf).
  assert (Htags :
            (exists items, tags p = Some items
               /\ matchesSearchArray searchTerm (Some items) = true)
            <-> (exists items, tags p' = Some items
                   /\ matchesSearchArray searchTerm (Some items) = true)).
  { destruct (tags p) as [l|], (tags p') as [l'|]; try contradiction.
    - split; intros [items [Hi H]]; injection Hi as <-.
      + exists l'. split; [reflexivity|].
        now apply (matchesSearchArray_SameItems searchTerm l l' Ht).
      + exists l. split; [reflexivity|].
        now apply (matchesSearchArray_SameItems searchTerm l l' Ht).
    - split; intros [items [Hi _]]; discriminate. }
  rewrite Htags. reflexivity.
Qed.

Lemma entries_length (searchTerm : option jsstring)
  (label : option jsstring -> jsstring) (items : list (option jsstring)) :
  length (flat_map (fun item => entryIfMatch searchTerm item (label item))
                   items)
  = length (filter (fun item => matchesSearch searchTerm item) items).
Proof.
  induction items as [|i items IH]; [reflexivity|].
  cbn [flat_map filter]. rewrite length_app, IH. unfold entryIfMatch.
  destruct (matchesSearch searchTerm i); reflexivity.
Qed.

(** X10. [debugSearch] does not stop at a match: on a defined product
    its result has one entry for each of name, English name and
    description that matches, and one for each matching colour, material
    and feature, repetitions included. *)
Theorem debugSearch_counts (p : SearchableProduct)
  (searchTerm : option jsstring) :
  exists matches,
    debugSearch (Some p) searchTerm = Normal matches
    /\ length matches
       = (Nat.b2n (matchesSearch searchTerm (name p))
          + Nat.b2n (matchesSearch searchTerm (nameEn p))
          + Nat.b2n (matchesSearch searchTerm (description p))
          + length (filter (fun item => matchesSearch searchTerm item)
                           (colors p))
          + length (filter (fun item => matchesSearch searchTerm item)
                           (materials p))
          + length (filter (fun item => matchesSearch searchTerm item)
                           (features p)))%nat.
Proof.
  rewrite debugSearch_entries. eexists. split; [reflexivity|].
  rewrite !length_app, !entries_length. unfold entryIfMatch.
  destruct (matchesSearch searchTerm (name p)),
    (matchesSearch searchTerm (nameEn p)),
    (matchesSearch searchTerm (description p)); cbn [length Nat.b2n]; lia.
Qed.

Lemma entries_nil (searchTerm : option jsstring)
  (label : option jsstring -> jsstring) (items : list (option jsstring)) :
  (forall item, In item items -> matchesSearch searchTerm item = false) ->
  flat_map (fun item => entryIfMatch searchTerm item (label item)) items = [].
Proof.
  induction items as [|i items IH]; intros H; [reflexivity|].
  cbn [flat_map]. unfold entryIfMatch at 1.
  rewrite (H i (or_introl eq_refl)). cbn [app].
  apply IH. intros item Hin. apply H. now right.
Qed.

(** X11. Whatever [debugSearch] reports, [searchProduct] finds: when
    the debug helper returns an entry for a product, the filter keeps
    that product. *)
Theorem debugSearch_sound (p : SearchableProduct)
  (searchTerm : option jsstring) (matches : list jsstring) :
  debugSearch (Some p) searchTerm = Normal matches ->
  matches <> [] ->
  searchProduct (Some p) searchTerm = true.
Proof.
  rewrite debugSearch_entries. intros Hm Hne.
  apply Normal_inj in Hm. subst matches.
  destruct (searchProduct (Some p) searchTerm) eqn:E; [reflexivity|].
  exfalso. apply Hne.
  assert (Hno : ~ SomeFieldMatches p searchTerm).
  { intros H.
    assert (Ht : searchProduct (Some p) searchTerm = true)
      by (apply searchProduct_cases; now right).
    congruence. }
  unfold SomeFieldMatches in Hno.
  assert (Harr : forall (label : option jsstring -> jsstring) items,
             matchesSearchArray searchTerm (Some items) <> true ->
             flat_map (fun item =>
                         entryIfMatch searchTerm item (label item)) items
             = []).
  { intros label items H. apply entries_nil. intros item Hin.
    destruct (matchesSearch searchTerm item) eqn:Ei; [|reflexivity].
    exfalso. apply H. apply matchesSearchArray_spec. eauto. }
  rewrite (Harr (fun item => js "Color: " ++ interpolate item) (colors p))
    by tauto.
  rewrite (Harr (fun item => js "Material: " ++ interpolate item)
             (materials p)) by tauto.
  rewrite (Harr (fun item => js "Feature: " ++ interpolate item)
             (features p)) by tauto.
  unfold entryIfMatch.
  destruct (matchesSearch searchTerm (name p)); [tauto|].
  destruct (matchesSearch searchTerm (nameEn p)); [tauto|].
  destruct (matchesSearch searchTerm (description p)); [tauto|].
  reflexivity.
Qed.

(** X12. A search term whose normalized form has fewer than two code
    units (an empty or undefined one among them) makes [debugSearch]
    report nothing, for every defined product, also where
    [searchProduct] keeps every product. *)
Theorem debugSearch_short_term (p : SearchableProduct)
  (searchTerm : option jsstring) :
  (length (normalizeSearchText searchTerm) < 2)%nat ->
  debugSearch (Some p) searchTerm = Normal [].
Proof.
  intros Hlen.
  assert (Hno : forall x, matchesSearch searchTerm x = false).
  { intros x. destruct (matchesSearch searchTerm x) eqn:E; [|reflexivity].
    apply matchesSearch_true_length in E. lia. }
  rewrite debugSearch_entries. unfold entryIfMatch at 1 2 3.
  rewrite !Hno, !entries_nil by (intros; apply Hno). reflexivity.
Qed.
End ProductProperties.

(* ================================================================== *)
(** ** More on the runtime for Latin and Greek text                    *)
(* ================================================================== *)

Lemma placeMark_In (x c : unit16) (out : jsstring) :
  In x (Fragment.placeMark c out) -> x = c \/ In x out.
Proof.
  induction out as [|p r IH]; cbn [Fragment.placeMark].
  - intros [<- | []]. now left.
  - destruct ((0 <? Fragment.ccc c) && (Fragment.ccc c <? Fragment.ccc p)).
    + intros [<- | H]; [right; now left|].
      destruct (IH H) as [-> | Hr]; [now left | right; now right].
    + intros [<- | H]; [now left | now right].
Qed.

Lemma canonicalOrder_In (x : unit16) (s : jsstring) :
  In x (Fragment.canonicalOrder s) -> In x s.
Proof.
  unfold Fragment.canonicalOrder. intros H. apply in_rev in H.
  assert (Hgen : forall s acc,
             In x (fold_left (fun out c => Fragment.placeMark c out) s acc) ->
             In x acc \/ In x s).
  { clear. induction s as [|c s IH]; intros acc H; cbn [fold_left] in H;
      [now left|].
    destruct (IH _ H) as [Hp | Hs]; [|right; now right].
    apply placeMark_In in Hp as [-> | Hp]; [right; now left | now left]. }
  destruct (Hgen _ _ H) as [[] | Hs]. exact Hs.
Qed.

Lemma decomposeUnit_In (table : list (unit16 * jsstring)) (u c : unit16) :
  In c (Fragment.decomposeUnit table u) ->
  c = u \/ exists k d, In (k, d) table /\ In c d.
Proof.
  induction table as [|[k d] table IH]; cbn [Fragment.decomposeUnit].
  - intros [<- | []]. now left.
  - destruct (k =? u).
    + intros H. right. exists k, d. split; [now left | exact H].
    + intros H. destruct (IH H) as [-> | [k' [d' [Hin Hc]]]]; [now left|].
      right. exists k', d'. split; [now right | exact Hc].
Qed.

(** No decomposition of the table holds an accented vowel, and each
    accented vowel is decomposed. *)
Lemma decomposeUnit_unaccented (u c : unit16) :
  In c (Fragment.decomposeUnit Fragment.decompositions u) ->
  isAccentedVowel c = false.
Proof.
  intros Hin. destruct (isAccentedVowel u) eqn:Eu.
  - unfold isAccentedVowel, greekVariations in Eu.
    cbn [firstn existsb fst] in Eu.
    rewrite !orb_true_iff, !Z.eqb_eq in Eu.
    repeat (destruct Eu as [Eu | Eu]; try contradiction);
      try discriminate; subst u; vm_compute in Hin;
      repeat (destruct Hin as [<- | Hin]; [reflexivity|]);
      contradiction.
  - apply decomposeUnit_In in Hin as [-> | [k [d [Hkd Hc]]]]; [exact Eu|].
    assert (Htable :
              forallb (fun p => forallb (fun x => negb (isAccentedVowel x))
                                        (snd p))
                      Fragment.decompositions = true)
      by (vm_compute; reflexivity).
    rewrite forallb_forall in Htable. specialize (Htable _ Hkd).
    cbn [snd] in Htable. rewrite forallb_forall in Htable.
    apply negb_true_iff. exact (Htable c Hc).
Qed.

Lemma fragment_normalizeNFD_unaccented (s : jsstring) (c : unit16) :
  In c (normalizeNFD (Runtime := fragmentRuntime) s) ->
  isAccentedVowel c = false.
Proof.
  cbn [normalizeNFD fragmentRuntime]. unfold Fragment.normalizeNFD.
  intros H. apply canonicalOrder_In in H.
  apply in_flat_map in H as [u [_ H]].
  eapply decomposeUnit_unaccented. exact H.
Qed.

(* ================================================================== *)
(** ** Worked examples of the further properties                       *)
(* ================================================================== *)

Lemma matchesSearch_normal_forms_example :
  matchesSearch (Some (js "ΝΙΠΤΉΡΑΣ")) (name washbasin)
  = matchesSearch (Some (js "νιπτηρας")) (name washbasin).
Proof.
  apply matchesSearch_normal_forms; vm_compute; reflexivity.
Defined.

Lemma allTokensMatched_monotone_example :
  allTokensMatched [js "led"] (map js ["panel"; "white"; "led"]%string) = true.
Proof.
  apply (allTokensMatched_monotone
           (map js ["white"; "led"]%string) [js "led"]
           (map js ["led"; "white"]%string)
           (map js ["panel"; "white"; "led"]%string)).
  - intros x [<- | []]. right. left. reflexivity.
  - intros x [<- | [<- | []]]; cbn [map In]; auto.
  - vm_compute. reflexivity.
Defined.

Lemma tokenize_substrings_example :
  IsSubstring (js "led") (normalizeSearchText (Some (js "White LED-Panel"))).
Proof.
  apply tokenize_substrings. vm_compute. auto.
Defined.

Lemma normalizeSearchText_shape_example :
  ~ In 0x2F (normalizeSearchText (Some (js "white/led  panel")))
  /\ normalizeSearchText (Some (js "white/led  panel")) = js "white led panel".
Proof.
  split.
  - intros Hin.
    destruct (proj1 (normalizeSearchText_shape
                       (Some (js "white/led  panel"))) _ Hin) as [H _].
    apply H. reflexivity.
  - vm_compute. reflexivity.
Defined.

Lemma vowel_replacements_never_fire_example :
  normalizePipeline (js "Νιπτήρας")
  = replaceRuns isWhiteSpace 0x20 false
      (replaceAll isSlash 0x20
         (replaceAll (Z.eqb 0x03C2) 0x03C3
            (removeAll isCombiningMark
               (normalizeNFD (trim (toLowerCase (js "Νιπτήρας"))))))).
Proof.
  apply (@vowel_replacements_never_fire fragmentRuntime).
  exact fragment_normalizeNFD_unaccented.
Defined.

Lemma searchProduct_order_irrelevant_example :
  searchProduct (Some washbasin) (Some (js "black"))
  = searchProduct (Some washbasinReordered) (Some (js "black")).
Proof.
  apply searchProduct_order_irrelevant.
  unfold SameUpToOrder, SameItems, washbasin, washbasinReordered, strings.
  cbn [name nameEn description descriptionEn colors materials features tags
       category subcategory map In].
  repeat apply conj; try reflexivity; intros x; tauto.
Defined.

Lemma debugSearch_sound_example :
  searchProduct (Some washbasin) (Some (js "white")) = true.
Proof.
  apply (debugSearch_sound washbasin (Some (js "white"))
           [js "Color: white"]).
  - vm_compute. reflexivity.
  - discriminate.
Defined.

Lemma debugSearch_short_term_example :
  debugSearch (Some washbasin) (Some (js "x")) = Normal []
  /\ debugSearch (Some washbasin) undefined = Normal [].
Proof.
  split; apply debugSearch_short_term; vm_compute; lia.
Defined.

(* ================================================================== *)
(** ** No throw on the documented domain                               *)
(* ================================================================== *)

Section NeverThrows.
Context {R : Runtime}.
Variable toDisplay : Dynamic.value -> jsstring.

Lemma truthy_ofText (text : option jsstring) :
  Dynamic.truthy (Dynamic.ofText text) = negb (falsy text).
Proof. destruct text as [[|c r]|]; reflexivity. Qed.

(** The guard [!text] leaves a string to [toLowerCase]. *)
Lemma dynamic_normalizeSearchText (text : option jsstring) :
  Dynamic.normalizeSearchText (Dynamic.ofText text)
  = Normal (normalizeSearchText text).
Proof. destruct text as [[|c r]|]; reflexivity. Qed.

Lemma dynamic_tokenize (text : option jsstring) :
  Dynamic.tokenize (Dynamic.ofText text) = Normal (tokenize text).
Proof.
  unfold Dynamic.tokenize. rewrite dynamic_normalizeSearchText. reflexivity.
Qed.

Lemma dynamic_matchesSearch (searchTerm targetText : option jsstring) :
  Dynamic.matchesSearch (Dynamic.ofText searchTerm) (Dynamic.ofText targetText)
  = Normal (matchesSearch searchTerm targetText).
Proof.
  unfold Dynamic.matchesSearch, matchesSearch.
  rewrite !truthy_ofText, !negb_involutive.
  destruct (falsy searchTerm || falsy targetText); [reflexivity|].
  rewrite !dynamic_normalizeSearchText. cbn [Dynamic.bind]. cbv zeta.
  destruct (length (normalizeSearchText searchTerm) <? 2)%nat; [reflexivity|].
  destruct (includes _ _); [reflexivity|].
  rewrite dynamic_tokenize. cbn [Dynamic.bind].
  destruct (length (tokenize searchTerm) =? 0)%nat; [reflexivity|].
  rewrite dynamic_tokenize. cbn [Dynamic.bind].
  destruct (length (tokenize targetText) =? 0)%nat; reflexivity.
Qed.

Lemma dynamic_some (searchTerm : option jsstring)
  (items : list (option jsstring)) :
  Dynamic.some (fun item =>
                  Dynamic.matchesSearch (Dynamic.ofText searchTerm) item)
               (map Dynamic.ofText items)
  = Normal (existsb (fun item => matchesSearch searchTerm item) items).
Proof.
  induction items as [|i items IH]; [reflexivity|].
  cbn [map Dynamic.some existsb]. rewrite dynamic_matchesSearch.
  cbn [Dynamic.bind]. destruct (matchesSearch searchTerm i); [reflexivity|].
  exact IH.
Qed.

Lemma dynamic_matchesSearchArray (searchTerm : option jsstring)
  (items : option (list (option jsstring))) :
  Dynamic.matchesSearchArray (Dynamic.ofText searchTerm)
                             (Dynamic.ofOptionalItems items)
  = Normal (matchesSearchArray searchTerm items).
Proof.
  unfold Dynamic.matchesSearchArray, matchesSearchArray.
  rewrite truthy_ofText, negb_involutive.
  destruct items as [l|]; cbn [Dynamic.ofOptionalItems Dynamic.ofItems
                               Dynamic.truthy negb].
  - rewrite orb_false_r, length_map, dynamic_some.
    destruct (falsy searchTerm); [reflexivity|]. cbn [orb].
    destruct (length l =? 0)%nat; reflexivity.
  - rewrite orb_true_r. reflexivity.
Qed.

Lemma dynamic_whenPresent (searchTerm x : option jsstring) :
  Dynamic.whenPresent (Dynamic.ofText x)
                      (Dynamic.matchesSearch (Dynamic.ofText searchTerm))
  = Normal (negb (falsy x) && matchesSearch searchTerm x).
Proof.
  unfold Dynamic.whenPresent. rewrite truthy_ofText, dynamic_matchesSearch.
  destruct (falsy x); reflexivity.
Qed.

Lemma dynamic_whenPresent_items (searchTerm : option jsstring)
  (items : option (list (option jsstring))) :
  Dynamic.whenPresent (Dynamic.ofOptionalItems items)
                      (Dynamic.matchesSearchArray (Dynamic.ofText searchTerm))
  = Normal match items with
           | Some _ => matchesSearchArray searchTerm items
           | None => false
           end.
Proof.
  unfold Dynamic.whenPresent. rewrite dynamic_matchesSearchArray.
  destruct items; reflexivity.
Qed.

(** Reading the fields of a product. *)
Lemma get_ofProduct (p : SearchableProduct) :
  Dynamic.get (Dynamic.ofProduct p) "name" = Normal (Dynamic.ofText (name p))
  /\ Dynamic.get (Dynamic.ofProduct p) "nameEn"
     = Normal (Dynamic.ofText (nameEn p))
  /\ Dynamic.get (Dynamic.ofProduct p) "description"
     = Normal (Dynamic.ofText (description p))
  /\ Dynamic.get (Dynamic.ofProduct p) "descriptionEn"
     = Normal (Dynamic.ofText (descriptionEn p))
  /\ Dynamic.get (Dynamic.ofProduct p) "colors"
     = Normal (Dynamic.ofOptionalItems (Some (colors p)))
  /\ Dynamic.get (Dynamic.ofProduct p) "materials"
     = Normal (Dynamic.ofOptionalItems (Some (materials p)))
  /\ Dynamic.get (Dynamic.ofProduct p) "features"
     = Normal (Dynamic.ofOptionalItems (Some (features p)))
  /\ Dynamic.get (Dynamic.ofProduct p) "tags"
     = Normal (Dynamic.ofOptionalItems (tags p))
  /\ Dynamic.get (Dynamic.ofProduct p) "category"
     = Normal (Dynamic.ofText (category p))
  /\ Dynamic.get (Dynamic.ofProduct p) "subcategory"
     = Normal (Dynamic.ofText (subcategory p)).
Proof. repeat apply conj; reflexivity. Qed.

Lemma dynamic_searchProduct (product : option SearchableProduct)
  (searchTerm : option jsstring) :
  Dynamic.searchProduct (Dynamic.ofOptionalProduct product)
                        (Dynamic.ofText searchTerm)
  = Normal (searchProduct product searchTerm).
Proof.
  unfold Dynamic.searchProduct, searchProduct.
  assert (Hfirst :
            (if negb (Dynamic.truthy (Dynamic.ofText searchTerm))
             then Normal true
             else Dynamic.bind (Dynamic.asString (Dynamic.ofText searchTerm))
                    (fun s => Normal (length (trim s) =? 0)%nat))
            = Normal (noConstraint searchTerm))
    by (destruct searchTerm as [[|c r]|]; reflexivity).
  rewrite Hfirst. cbn [Dynamic.bind].
  destruct (noConstraint searchTerm); [reflexivity|].
  destruct product as [p|]; [|reflexivity].
  cbn [Dynamic.ofOptionalProduct].
  replace (Dynamic.truthy (Dynamic.ofProduct p)) with true by reflexivity.
  cbn [negb].
  rewrite dynamic_normalizeSearchText. cbn [Dynamic.bind]. cbv zeta.
  destruct (length (normalizeSearchText searchTerm) <? 2)%nat; [reflexivity|].
  destruct (get_ofProduct p)
    as (G1 & G2 & G3 & G4 & G5 & G6 & G7 & G8 & G9 & G10).
  rewrite G1, G2, G3, G4, G5, G6, G7, G8, G9, G10. cbn [Dynamic.bind].
  rewrite !dynamic_matchesSearch, !dynamic_whenPresent,
    !dynamic_matchesSearchArray, dynamic_whenPresent_items.
  unfold Dynamic.orElse. cbn [Dynamic.bind].
  repeat match goal with
         | |- (if ?b then Normal true else _) = _ =>
             destruct b; [reflexivity|]
         end.
  reflexivity.
Qed.

(** An entry is built from a matching value only, and a matching value
    is a string. *)
Lemma dynamic_pushIfMatch (searchTerm x : option jsstring)
  (label : jsstring) (matches : list jsstring) :
  Dynamic.pushIfMatch (Dynamic.ofText searchTerm) (Dynamic.ofText x)
    (label ++ Dynamic.display toDisplay (Dynamic.ofText x)) matches
  = Normal (pushIfMatch searchTerm x (label ++ interpolate x) matches).
Proof.
  unfold Dynamic.pushIfMatch, pushIfMatch. rewrite dynamic_matchesSearch.
  cbn [Dynamic.bind]. destruct (matchesSearch searchTerm x) eqn:E;
    [|reflexivity].
  destruct x as [s|]; [reflexivity|].
  rewrite matchesSearch_falsy_target in E by reflexivity. discriminate.
Qed.

Lemma dynamic_pushEachMatch (searchTerm : option jsstring) (label : jsstring)
  (items : list (option jsstring)) :
  forall matches,
    Dynamic.pushEachMatch toDisplay (Dynamic.ofText searchTerm) label
      (map Dynamic.ofText items) matches
    = Normal (pushEachMatch searchTerm label items matches).
Proof.
  unfold pushEachMatch.
  induction items as [|i items IH]; intros matches; [reflexivity|].
  cbn [map Dynamic.pushEachMatch fold_left].
  rewrite dynamic_pushIfMatch. cbn [Dynamic.bind]. apply IH.
Qed.

Lemma dynamic_debugSearch (p : SearchableProduct)
  (searchTerm : option jsstring) :
  Dynamic.debugSearch toDisplay (Dynamic.ofProduct p)
                      (Dynamic.ofText searchTerm)
  = debugSearch (Some p) searchTerm.
Proof.
  unfold Dynamic.debugSearch, debugSearch. cbv zeta.
  destruct (get_ofProduct p)
    as (G1 & G2 & G3 & _ & G5 & G6 & G7 & _).
  rewrite G1, G2, G3, G5, G6, G7.
  cbn [Dynamic.bind Dynamic.ofOptionalItems Dynamic.ofItems Dynamic.asArray].
  rewrite dynamic_pushIfMatch. cbn [Dynamic.bind].
  rewrite dynamic_pushIfMatch. cbn [Dynamic.bind].
  assert (Hd : forall matches,
             Dynamic.pushIfMatch (Dynamic.ofText searchTerm)
               (Dynamic.ofText (description p)) (js "Description") matches
             = Normal (pushIfMatch searchTerm (description p)
                         (js "Description") matches)).
  { intros matches. unfold Dynamic.pushIfMatch, pushIfMatch.
    rewrite dynamic_matchesSearch. reflexivity. }
  rewrite Hd. cbn [Dynamic.bind].
  rewrite dynamic_pushEachMatch. cbn [Dynamic.bind].
  rewrite dynamic_pushEachMatch. cbn [Dynamic.bind].
  rewrite dynamic_pushEachMatch. cbn [Dynamic.bind].
  reflexivity.
Qed.

(** Outside the documented domain the functions do throw: on a search
    term that is a number, on items that are a string, on an undefined
    product and on a product without colours for [debugSearch]. *)
Lemma throws_outside_domain (searchTerm : option jsstring) :
  Dynamic.normalizeSearchText (Dynamic.VNumber 5) = Throw TypeError
  /\ Dynamic.matchesSearch (Dynamic.VNumber 5) (Dynamic.VString (js "x"))
     = Throw TypeError
  /\ Dynamic.matchesSearchArray (Dynamic.VString (js "x"))
                                (Dynamic.VString (js "white"))
     = Throw TypeError
  /\ Dynamic.searchProduct Dynamic.VUndefined (Dynamic.VNumber 5)
     = Throw TypeError
  /\ Dynamic.debugSearch toDisplay Dynamic.VUndefined
                         (Dynamic.ofText searchTerm)
     = Throw TypeError
  /\ Dynamic.debugSearch toDisplay (Dynamic.VObject [])
                         (Dynamic.ofText searchTerm)
     = Throw TypeError.
Proof.
  repeat apply conj; try reflexivity.
  unfold Dynamic.debugSearch.
  cbn [Dynamic.get Dynamic.lookup Dynamic.bind].
  change Dynamic.VUndefined with (Dynamic.ofText undefined).
  unfold Dynamic.pushIfMatch. rewrite !dynamic_matchesSearch.
  reflexivity.
Qed.

(** C9. No public function throws on its documented domain, empty and
    undefined strings included: called with strings or [undefined], with
    an array of them or [undefined] for the items, with a product or
    [undefined] for [searchProduct] and with a product for [debugSearch],
    each of the six functions on untyped values completes normally, and
    returns the string, the sequence or the boolean that the function of
    the same name gives. *)
Theorem public_functions_never_throw :
  (forall text,
      Dynamic.normalizeSearchText (Dynamic.ofText text)
      = Normal (normalizeSearchText text))
  /\ (forall text,
        Dynamic.tokenize (Dynamic.ofText text) = Normal (tokenize text))
  /\ (forall searchTerm targetText,
        Dynamic.matchesSearch (Dynamic.ofText searchTerm)
                              (Dynamic.ofText targetText)
        = Normal (matchesSearch searchTerm targetText))
  /\ (forall searchTerm items,
        Dynamic.matchesSearchArray (Dynamic.ofText searchTerm)
                                   (Dynamic.ofOptionalItems items)
        = Normal (matchesSearchArray searchTerm items))
  /\ (forall product searchTerm,
        Dynamic.searchProduct (Dynamic.ofOptionalProduct product)
                              (Dynamic.ofText searchTerm)
        = Normal (searchProduct product searchTerm))
  /\ (forall p searchTerm,
        exists matches,
          Dynamic.debugSearch toDisplay (Dynamic.ofProduct p)
                              (Dynamic.ofText searchTerm)
          = Normal matches
          /\ debugSearch (Some p) searchTerm = Normal matches).
Proof.
  repeat apply conj.
  - exact dynamic_normalizeSearchText.
  - exact dynamic_tokenize.
  - exact dynamic_matchesSearch.
  - exact dynamic_matchesSearchArray.
  - exact dynamic_searchProduct.
  - intros p searchTerm. rewrite dynamic_debugSearch, debugSearch_entries.
    eexists. split; reflexivity.
Qed.
End NeverThrows.

Lemma public_functions_never_throw_example :
  Dynamic.searchProduct (Dynamic.ofProduct washbasin)
                        (Dynamic.VString (js "white"))
  = Normal true
  /\ Dynamic.matchesSearch Dynamic.VUndefined (Dynamic.VString (js "white"))
     = Normal false.
Proof.
  destruct (@public_functions_never_throw fragmentRuntime (fun _ => []))
    as [_ [_ [Hm [_ [Hs _]]]]].
  split.
  - change (Dynamic.searchProduct
              (Dynamic.ofOptionalProduct (Some washbasin))
              (Dynamic.ofText (Some (js "white"))) = Normal true).
    rewrite Hs. vm_compute. reflexivity.
  - change (Dynamic.matchesSearch (Dynamic.ofText undefined)
              (Dynamic.ofText (Some (js "white"))) = Normal false).
    rewrite Hm. reflexivity.
Defined.

(** The untrimmed result of [normalizeSearchText] is two code units long
    and passes the test on the length of the normalized search term;
    the trimmed term does not.  A combining mark in front of a space
    leaves a leading space in the same way. *)
Lemma normalizeSearchText_untrimmed :
  normalizeSearchText (Some (js "a/")) = js "a "
  /\ normalizeSearchText (Some [0x0301; 0x20; 0x61]) = js " a"
  /\ matchesSearch (Some (js "a/")) (Some (js "a b")) = true
  /\ matchesSearch (Some (js "a")) (Some (js "a b")) = false.
Proof. repeat apply conj; vm_compute; reflexivity. Qed.
